(** * k-means from scratch: [find_clusters]

    A shallow embedding of the function [find_clusters] of the notebook
    [k-means_clustering_GMM], of the plotting helpers next to it and of
    the NumPy / scikit-learn operations they call, followed by their
    properties.

    Numbers.  A float64 is a binary64 number of the kernel
    ([PrimFloat.float]), with the IEEE 754 operations of the processor:
    every operation rounds its exact result to the nearest float64, ties
    to even, overflows to an infinity and propagates NaN.  The
    Standard Library specifies these operations ([FloatAxioms]); the
    general statements below rest on this specification, the concrete
    runs are computed.

    Library calls.  [np.random.RandomState] is a parameter of the
    development (a generator state, a seeding function and a permutation
    draw).  So are the two places where a library chooses how a
    floating-point expression is evaluated: the distance between a point
    and a center that [pairwise_distances_argmin] computes, and the sum
    of a column in [mean(0)], where NumPy takes the order of the
    additions from the memory layout.  Validation, the argmin,
    boolean-mask and integer-array indexing, the division by the count
    and [np.all(a == b)] are modelled from their documented behaviour. *)

From Stdlib Require Import QArith Qreduction Lqa ZArith Lia Bool Arith List Permutation.
From Stdlib Require Import PrimFloat SpecFloat FloatOps FloatAxioms.
Import ListNotations.

Set Implicit Arguments.

Local Open Scope nat_scope.

(** ** Floating-point values *)

Abbreviation float := PrimFloat.float.
Abbreviation NaN := PrimFloat.nan.

(** The operations of the processor, under the names used below. *)
Definition fadd (a b : float) : float := PrimFloat.add a b.
Definition fsub (a b : float) : float := PrimFloat.sub a b.
Definition fmul (a b : float) : float := PrimFloat.mul a b.
Definition fdiv (a b : float) : float := PrimFloat.div a b.
Definition fsqrt (a : float) : float := PrimFloat.sqrt a.

(** The comparison [a == b] on floats: numeric equality, NaN differs
    from everything, itself included. *)
Definition feqb (a b : float) : bool := PrimFloat.eqb a b.

(** [a == b] holds. *)
Definition feq (a b : float) : Prop := feqb a b = true.

(** [a < b] and [a <= b]; false when one of them is NaN. *)
Definition fltb (a b : float) : bool := PrimFloat.ltb a b.
Definition fleb (a b : float) : bool := PrimFloat.leb a b.

(** Equal as numbers, or both NaN. *)
Definition same_number (a b : float) : bool :=
  feqb a b || (is_nan a && is_nan b).

(** The maximum of two values as [np.max] folds it: NaN wins. *)
Definition fmax (a b : float) : float :=
  if is_nan a || is_nan b then NaN else if fleb a b then b else a.

(** The float64 nearest to an integer. *)
Definition float_of_Z (z : Z) : float :=
  SF2Prim (binary_normalize prec emax z 0 false).

Definition float_of_nat (n : nat) : float := float_of_Z (Z.of_nat n).

(** Division of an accumulated sum by an element count, as [mean] does:
    [0/0] is NaN, a non-zero number over zero is an infinity. *)
Definition fdiv_count (s : float) (n : nat) : float := fdiv s (float_of_nat n).

(** The number [m * 2 ^ e]. *)
Definition scaled (m e : Z) : Q :=
  if (0 <=? e)%Z then inject_Z (m * 2 ^ e) else Qmake m (Z.to_pos (2 ^ (- e))).

(** The rational number that a finite float denotes (0 for the others;
    only used on values that passed the finiteness check). *)
Definition to_Q (f : float) : Q :=
  match Prim2SF f with
  | S754_finite s m e => Qred (if s then - scaled (Zpos m) e else scaled (Zpos m) e)
  | _ => 0%Q
  end.

(** ** Arrays *)

(** A two-dimensional array is the list of its rows. *)
Definition vector := list float.
Definition array := list vector.

Definition nrows (A : array) : nat := length A.

Definition ncols (A : array) : nat :=
  match A with
  | [] => 0
  | r :: _ => length r
  end.

Definition is_rect (A : array) : bool :=
  forallb (fun r => length r =? ncols A) A.

Definition all_finite (A : array) : bool :=
  forallb (forallb is_finite) A.

Definition has_nan (A : array) : bool :=
  existsb (existsb is_nan) A.

(** Every row has [D] entries. *)
Definition matrix (D : nat) (A : array) : Prop :=
  Forall (fun r => length r = D) A.

(** ** Exceptions and results *)

Inductive exn : Type :=
| ValueError    (* raised by the library's validation and by a failed broadcast *)
| IndexError    (* an index outside of the array *)
| BadHandle.    (* a generator handle that names no object *)

Inductive result (A : Type) : Type :=
| Ok (a : A)
| Raise (e : exn).
Arguments Raise {A} e.

(** What a bounded run of a loop produces: a value, an exception, or the
    information that the iteration budget was used up while the loop was
    still running. *)
Inductive outcome (A : Type) : Type :=
| Returned (a : A)
| Raised (e : exn)
| OutOfFuel.
Arguments Raised {A} e.
Arguments OutOfFuel {A}.

(** ** scikit-learn: validation and argmin *)

(** [check_array] with its defaults: a two-dimensional array with at
    least one sample and one feature, all entries finite. *)
Definition check_array (A : array) : bool :=
  is_rect A && (1 <=? nrows A) && (1 <=? ncols A) && all_finite A.

(** The argmin over a row of computed distances: the first index of the
    minimum.  [argmin_from best bi i l] scans [l], whose first element
    has index [i], knowing the minimum [best] at index [bi] so far; a
    later distance replaces it only when it is less. *)
Fixpoint argmin_from (best : float) (bi i : nat) (l : list float) : nat :=
  match l with
  | [] => bi
  | d :: l' =>
      if fltb d best then argmin_from d i (S i) l'
      else argmin_from best bi (S i) l'
  end.

Definition argmin (l : list float) : nat :=
  match l with
  | [] => 0
  | d :: l' => argmin_from d 0 1 l'
  end.

(** ** NumPy: indexing and comparison *)

(** [X[i]] for an integer index array [i]. *)
Fixpoint take_rows (X : array) (idx : list nat) : result array :=
  match idx with
  | [] => Ok []
  | j :: idx' =>
      match nth_error X j, take_rows X idx' with
      | Some r, Ok rs => Ok (r :: rs)
      | None, _ => Raise IndexError
      | _, Raise e => Raise e
      end
  end.

(** [X[labels == i]]: the rows of [X] whose label is [i]. *)
Definition select (X : array) (labels : list nat) (i : nat) : array :=
  map fst (filter (fun p => snd p =? i) (combine X labels)).

Fixpoint zip_with {A B C : Type} (f : A -> B -> C) (l : list A) (m : list B) : list C :=
  match l, m with
  | a :: l', b :: m' => f a b :: zip_with f l' m'
  | _, _ => []
  end.

(** Broadcasting of one axis: two lengths are compatible when they are
    equal or when one of them is 1; [broadcast n l] stretches [l] to
    length [n]. *)
Definition compatible (n m : nat) : bool :=
  (n =? m) || (n =? 1) || (m =? 1).

Definition bshape (n m : nat) : nat := if n =? 1 then m else n.

Definition broadcast {A : Type} (n : nat) (l : list A) : list A :=
  match l with
  | [a] => repeat a n
  | _ => l
  end.

Definition shapes_ok (a b : array) : bool :=
  compatible (nrows a) (nrows b) && compatible (ncols a) (ncols b).

Definition row_eqb (n : nat) (r s : vector) : bool :=
  forallb (fun p => feqb (fst p) (snd p)) (combine (broadcast n r) (broadcast n s)).

(** [np.all(a == b)] when the shapes broadcast. *)
Definition all_equal (a b : array) : bool :=
  let n := bshape (nrows a) (nrows b) in
  let d := bshape (ncols a) (ncols b) in
  forallb (fun p => row_eqb d (fst p) (snd p)) (combine (broadcast n a) (broadcast n b)).

(** ** Notions of the specification *)

(** These are exact: they are computed on the rational numbers that the
    floats denote. *)

Definition Qsum (l : list Q) : Q := fold_right Qplus 0%Q l.

Definition rowQ (r : vector) : list Q := map to_Q r.

(** Column [d] of a finite array. *)
Definition column (d : nat) (rows : array) : list Q :=
  map (fun r => to_Q (nth d r NaN)) rows.

(** The arithmetic mean of a list of numbers. *)
Definition mean_of (l : list Q) : Q :=
  (Qsum l / inject_Z (Z.of_nat (length l)))%Q.

Fixpoint sqdist (x y : list Q) : Q :=
  match x, y with
  | a :: x', b :: y' => ((a - b) * (a - b) + sqdist x' y')%Q
  | _, _ => 0%Q
  end.

(** The squared Euclidean distance between a point and a center. *)
Definition dist2 (x c : vector) : Q := sqdist (rowQ x) (rowQ c).

(** The within-cluster sum of squared distances of an assignment. *)
Definition wcss (X centers : array) (labels : list nat) : Q :=
  Qsum (map (fun p => dist2 (fst p) (nth (snd p) centers [])) (combine X labels)).

(** Every point carries the index of a center that is nearest to it. *)
Definition nearest_labels (X centers : array) (labels : list nat) : Prop :=
  Forall2 (fun x k =>
             forall j, j < nrows centers ->
               (dist2 x (nth k centers []) <= dist2 x (nth j centers []))%Q)
          X labels.

(** Every component of every center is the arithmetic mean of that
    component over the points that carry its label. *)
Definition exact_means (X : array) (labels : list nat) (centers : array) : Prop :=
  forall k d, k < nrows centers -> d < ncols X ->
    (to_Q (nth d (nth k centers []) NaN) == mean_of (column d (select X labels k)))%Q.

(** An order on the floats that are not NaN: [key] sends them to triples
    of integers, ordered lexicographically as the floats are (first the
    class, from the negative infinity to the positive one, then the
    exponent and the significand). *)
Definition key (x : spec_float) : Z * Z * Z :=
  match x with
  | S754_nan => (0, 0, 0)%Z
  | S754_zero _ => (0, 0, 0)%Z
  | S754_infinity s => if s then (-2, 0, 0)%Z else (2, 0, 0)%Z
  | S754_finite s m e => if s then (-1, - e, - Zpos m)%Z else (1, e, Zpos m)%Z
  end.

Definition lexlt (a b : Z * Z * Z) : Prop :=
  let '(a1, a2, a3) := a in
  let '(b1, b2, b3) := b in
  (a1 < b1 \/ (a1 = b1 /\ (a2 < b2 \/ (a2 = b2 /\ a3 < b3))))%Z.

Definition fkey (f : float) : Z * Z * Z := key (Prim2SF f).

Definition sf_nan (x : spec_float) : bool :=
  match x with S754_nan => true | _ => false end.




(** ** The plotting helpers: values and drawing commands *)

(** An array of dimension 0, 1 or 2. *)
Inductive ndarray : Type :=
| Scalar (f : float)
| Vec (v : vector)
| Mat (m : array).

(** The keyword arguments handed on to [Ellipse]. *)
Inductive kwarg : Type :=
| Alpha (a : float).

Inductive patch : Type :=
| Circle (xy : vector) (radius : float)
| Ellipse (xy : vector) (width height : ndarray) (angle : float) (kwargs : list kwarg).

(** What is asked of an axes object. *)
Inductive command : Type :=
| AxisEqual
| Scatter (x y : list float) (c : option (list nat))
| AddPatch (p : patch).

(** The axes of the session, numbered, each with the commands it has
    received, and the number of the current one ([plt.gca()]). *)
Record figure : Type := {
  gca : nat;
  drawn : nat -> list command
}.

Definition draw (a : nat) (cmd : command) (fig : figure) : figure :=
  {| gca := gca fig;
     drawn := fun b => if b =? a then drawn fig b ++ [cmd] else drawn fig b |}.

(** [ax or plt.gca()] *)
Definition ax_or_gca (ax : option nat) (fig : figure) : nat :=
  match ax with
  | Some a => a
  | None => gca fig
  end.

(** The exceptions of the plotting helpers. *)
Inductive pyexn : Type :=
| ValueErr      (* a reduction of no element, an unpacking of the wrong length, a library check *)
| IndexErr      (* a column that the array does not have *)
| TypeErr       (* the unpacking of a scalar *)
| LinAlgErr.    (* raised by the decomposition *)

Inductive try (A : Type) : Type :=
| Done (a : A)
| Throw (e : pyexn).
Arguments Throw {A} e.

(** [X[:, j]] *)
Definition column_of (j : nat) (X : array) : try (list float) :=
  if j <? ncols X then Done (map (fun r => nth j r NaN) X) else Throw IndexErr.

(** [max()] of an array given by its entries. *)
Definition max_of (l : list float) : try float :=
  match l with
  | [] => Throw ValueErr
  | a :: l' => Done (fold_left fmax l' a)
  end.

(** What a fitted [KMeans] gives: the labels returned by [fit_predict]
    and the attribute [cluster_centers_]. *)
Record kmeans_fit : Type := {
  km_labels : list nat;
  cluster_centers_ : array
}.

(** What a fitted [GaussianMixture] gives: the labels returned by
    [predict] and the attributes read by [plot_gmm]. *)
Record gmm_fit : Type := {
  gm_labels : list nat;
  weights_ : list float;
  means_ : array;
  covariances_ : list ndarray
}.

Fixpoint zip3 {A B C : Type} (l : list A) (m : list B) (n : list C) : list (A * B * C) :=
  match l, m, n with
  | a :: l', b :: m', c :: n' => (a, b, c) :: zip3 l' m' n'
  | _, _, _ => []
  end.

Section Plotting.

(** The library functions of the plotting helpers, as parameters:
    [degrees(arctan2(y, x))], the singular value decomposition (its [U]
    and [s]), and the two estimators. *)
Variable degrees_arctan2 : float -> float -> float.
Variable svd : array -> try (array * vector).
Variable kmeans_fit_predict : array -> try kmeans_fit.
Variable gmm_fit_predict : array -> try gmm_fit.

Definition ndsqrt (a : ndarray) : ndarray :=
  match a with
  | Scalar f => Scalar (fsqrt f)
  | Vec v => Vec (map fsqrt v)
  | Mat m => Mat (map (map fsqrt) m)
  end.

(** The product of a scalar and an array. *)
Definition ndscale (k : float) (a : ndarray) : ndarray :=
  match a with
  | Scalar f => Scalar (fmul k f)
  | Vec v => Vec (map (fmul k) v)
  | Mat m => Mat (map (map (fmul k)) m)
  end.

(** [a, b = arr]: the unpacking of an array into two names. *)
Definition unpack2 (a : ndarray) : try (ndarray * ndarray) :=
  match a with
  | Scalar _ => Throw TypeErr
  | Vec [x; y] => Done (Scalar x, Scalar y)
  | Vec _ => Throw ValueErr
  | Mat [r; t] => Done (Vec r, Vec t)
  | Mat _ => Throw ValueErr
  end.

(** The Euclidean distance of [cdist] between a row and a center: the
    squares of the differences are added up from 0, in order. *)
Definition euclid (center x : vector) : float :=
  fsqrt (fold_left fadd
           (zip_with (fun a b => fmul (fsub a b) (fsub a b)) x center)
           0%float).

(** [cdist(A, [center]).max()]: the columns must agree, and there must
    be a row. *)
Definition cdist_max (A : array) (center : vector) : try float :=
  if forallb (fun x => length x =? length center) A
  then max_of (map (euclid center) A)
  else Throw ValueErr.

(** [[cdist(X[labels == i], [center]).max()
      for i, center in enumerate(centers)]], from index [i] on. *)
Fixpoint radii_from (i : nat) (X : array) (labels : list nat) (centers : array)
  : try (list float) :=
  match centers with
  | [] => Done []
  | center :: centers' =>
      match cdist_max (select X labels i) center with
      | Throw e => Throw e
      | Done r =>
          match radii_from (S i) X labels centers' with
          | Throw e => Throw e
          | Done rs => Done (r :: rs)
          end
      end
  end.

Definition circles (centers : array) (radii : list float) : list command :=
  map (fun p => AddPatch (Circle (fst p) (snd p))) (combine centers radii).

Fixpoint draw_all (a : nat) (cmds : list command) (fig : figure) : figure :=
  match cmds with
  | [] => fig
  | cmd :: cmds' => draw_all a cmds' (draw a cmd fig)
  end.

(** [plot_kmeans(kmeans, X, n_clusters, rseed, ax)]; the arguments
    [n_clusters] and [rseed] are not used by the function. *)
Definition plot_kmeans (X : array) (n_clusters : nat) (rseed : Z) (ax : option nat)
           (fig : figure) : try unit * figure :=
  match kmeans_fit_predict X with
  | Throw e => (Throw e, fig)
  | Done km =>
      let labels := km_labels km in
      let a := ax_or_gca ax fig in
      let fig1 := draw a AxisEqual fig in
      match column_of 0 X, column_of 1 X with
      | Done x0, Done x1 =>
          let fig2 := draw a (Scatter x0 x1 (Some labels)) fig1 in
          let centers := cluster_centers_ km in
          match radii_from 0 X labels centers with
          | Throw e => (Throw e, fig2)
          | Done radii => (Done tt, draw_all a (circles centers radii) fig2)
          end
      | Throw e, _ => (Throw e, fig1)
      | _, Throw e => (Throw e, fig1)
      end
  end.

(** [covariance.shape == (2, 2)] *)
Definition is_2x2 (covariance : ndarray) : bool :=
  match covariance with
  | Mat [[_; _]; [_; _]] => true
  | _ => false
  end.

(** The principal axes computed by [draw_ellipse]: the angle, the width
    and the height. *)
Definition principal_axes (covariance : ndarray) : try (float * ndarray * ndarray) :=
  if is_2x2 covariance then
    match covariance with
    | Mat m =>
        match svd m with
        | Throw e => Throw e
        | Done (U, s) =>
            let angle := degrees_arctan2 (nth 0 (nth 1 U []) NaN) (nth 0 (nth 0 U []) NaN) in
            match unpack2 (ndscale 2%float (ndsqrt (Vec s))) with
            | Throw e => Throw e
            | Done (w, h) => Done (angle, w, h)
            end
        end
    | _ => Throw ValueErr
    end
  else
    match unpack2 (ndscale 2%float (ndsqrt covariance)) with
    | Throw e => Throw e
    | Done (w, h) => Done (0%float, w, h)
    end.

Definition nsig_of (n : nat) : float := float_of_nat n.

(** [draw_ellipse(position, covariance, ax, **kwargs)] *)
Definition draw_ellipse (position : vector) (covariance : ndarray) (ax : option nat)
           (kwargs : list kwarg) (fig : figure) : try unit * figure :=
  let a := ax_or_gca ax fig in
  match principal_axes covariance with
  | Throw e => (Throw e, fig)
  | Done (angle, width, height) =>
      (Done tt,
       draw_all a
         (map (fun nsig =>
                 AddPatch (Ellipse position (ndscale (nsig_of nsig) width)
                             (ndscale (nsig_of nsig) height) angle kwargs))
              (seq 1 3))
         fig)
  end.

(** The loop of [plot_gmm] over [zip(means_, covariances_, weights_)];
    [draw_ellipse] is called without [ax]. *)
Fixpoint ellipses_loop (comps : list (vector * ndarray * float)) (w_factor : float)
         (fig : figure) : try unit * figure :=
  match comps with
  | [] => (Done tt, fig)
  | (pos, covar, w) :: comps' =>
      match draw_ellipse pos covar None [Alpha (fmul w w_factor)] fig with
      | (Throw e, fig') => (Throw e, fig')
      | (Done _, fig') => ellipses_loop comps' w_factor fig'
      end
  end.

(** [plot_gmm(gmm, X, label, ax)] *)
Definition plot_gmm (X : array) (label : bool) (ax : option nat) (fig : figure)
  : try unit * figure :=
  let a := ax_or_gca ax fig in
  match gmm_fit_predict X with
  | Throw e => (Throw e, fig)
  | Done gm =>
      match column_of 0 X, column_of 1 X with
      | Done x0, Done x1 =>
          let fig1 :=
            draw a (Scatter x0 x1 (if label then Some (gm_labels gm) else None)) fig in
          let fig2 := draw a AxisEqual fig1 in
          match max_of (weights_ gm) with
          | Throw e => (Throw e, fig2)
          | Done wmax =>
              (* the literal 0.2: the float64 nearest to 1/5 *)
              let w_factor := fdiv 0x1.999999999999ap-3%float wmax in
              ellipses_loop (zip3 (means_ gm) (covariances_ gm) (weights_ gm)) w_factor fig2
          end
      | Throw e, _ => (Throw e, fig)
      | _, Throw e => (Throw e, fig)
      end
  end.

End Plotting.

(** ** What the ellipses of [plot_gmm] look like *)

(** The ellipses of one component: the three sizes of one shape. *)
Definition is_ellipse_of (pos : vector) (kwargs : list kwarg) (nsig : nat) (p : patch)
  : Prop :=
  exists width height angle,
    p = Ellipse pos (ndscale (nsig_of nsig) width) (ndscale (nsig_of nsig) height)
          angle kwargs.

(** The patches that the loop of [plot_gmm] adds for a list of
    components. *)
Inductive ellipses_for (w_factor : float)
  : list (vector * ndarray * float) -> list command -> Prop :=
| ellipses_nil : ellipses_for w_factor [] []
| ellipses_cons pos covar w comps p1 p2 p3 cmds :
    is_ellipse_of pos [Alpha (fmul w w_factor)] 1 p1 ->
    is_ellipse_of pos [Alpha (fmul w w_factor)] 2 p2 ->
    is_ellipse_of pos [Alpha (fmul w w_factor)] 3 p3 ->
    ellipses_for w_factor comps cmds ->
    ellipses_for w_factor ((pos, covar, w) :: comps)
      (AddPatch p1 :: AddPatch p2 :: AddPatch p3 :: cmds).


(** ** Stand-ins for the library functions of the plotting helpers *)

(** The decomposition of a diagonal matrix with decreasing non-negative
    entries, and the angle of its first axis. *)
Definition svd_diag (m : array) : try (array * vector) :=
  match m with
  | [[a; _]; [_; d]] => Done ([[1; 0]; [0; 1]]%float, [a; d])
  | _ => Throw LinAlgErr
  end.

Definition angle_diag (y x : float) : float := 0%float.

(** Estimators that validate the input and hand out a given fit. *)
Definition fitted_kmeans (km : kmeans_fit) (X : array) : try kmeans_fit :=
  if check_array X then Done km else Throw ValueErr.

Definition fitted_gmm (gm : gmm_fit) (X : array) : try gmm_fit :=
  if check_array X then Done gm else Throw ValueErr.

Definition blobs : array := [[0; 0]; [6; 8]; [20; 0]; [20; 6]]%float.

Definition blobs_kmeans : kmeans_fit :=
  {| km_labels := [0; 0; 1; 1]; cluster_centers_ := [[3; 4]; [20; 3]]%float |}.

Definition blobs_kmeans_3 : kmeans_fit :=
  {| km_labels := [0; 0; 2; 2];
     cluster_centers_ := [[3; 4]; [50; 50]; [20; 3]]%float |}.

Definition blobs_gmm (covs : list ndarray) : gmm_fit :=
  {| gm_labels := [0; 0; 1; 1];
     weights_ := [0.25; 0.75]%float;
     means_ := [[3; 4]; [20; 3]]%float;
     covariances_ := covs |}.

Definition full_covs : list ndarray :=
  [Mat [[16; 0]; [0; 9]]%float; Mat [[4; 0]; [0; 1]]%float].

Definition spherical_covs : list ndarray := [Scalar 25%float; Scalar 9%float].

(** A session with two empty axes, the first one current. *)
Definition two_axes : figure := {| gca := 0; drawn := fun _ => [] |}.

(** ** Stand-ins and inputs, for concrete runs of [find_clusters] *)

(** A stand-in for the Mersenne Twister: the state is a counter, the
    permutation drawn is the rotation of [range(n)] by the counter. *)
Definition rot_permutation (g : Z) (n : nat) : list nat * Z :=
  let k := Z.to_nat (g mod Z.of_nat (Nat.max n 1)) in
  (skipn k (seq 0 n) ++ firstn k (seq 0 n), (g + 1)%Z).

Definition rot_seed (seed : Z) : Z := seed.

(** A stand-in for the distance computed by the library: the squares of
    the differences, added up from 0 in order. *)
Definition sum_of_squares (x c : vector) : float :=
  fold_left fadd (zip_with (fun a b => fmul (fsub a b) (fsub a b)) x c) 0%float.

(** A stand-in for the sum of a column: the additions in row order,
    which is what NumPy does with the few rows of the inputs below. *)
Definition sum_in_order (D : nat) (col : list float) : float :=
  fold_left fadd col 0%float.

(** A one-column array from integers. *)
Definition points1 (l : list Z) : array := map (fun z => [float_of_Z z]) l.

(** Three numbers around [a = 1.5 + 2^-51], namely [a - 1], [a + 1] and
    [a]: the sum of the three is not a float64, and neither is a third
    of the rounded sum. *)
Definition tight_X : array :=
  [[0x1.0000000000004p-1]; [0x1.4000000000001p+1]; [0x1.8000000000002p+0]]%float.

(** Two numbers whose sum is beyond the largest float64, and 0. *)
Definition huge_X : array := [[0x1.8p+1023]; [0x1.8p+1023]; [0]]%float.

(** 372 points on a line on which two clusters exchange one point per
    pass for a long time: 370 points that spread out towards both ends
    and two more, the initial centers coming first. *)
Definition slow_P (j : Z) : Z := Z.sqrt (4000000 * j * (370 - j)).

Definition slow_pt (j : nat) : Z :=
  let z := Z.of_nat j in
  if (z <=? 370)%Z then (slow_P (z - 1) - slow_P z)%Z
  else if (z =? 371)%Z then 8800%Z else (-4000)%Z.

Definition slow_idx : list nat :=
  5 :: 262 :: filter (fun j => negb (j =? 5) && negb (j =? 262)) (seq 1 372).

Definition slow_X : array := points1 (map slow_pt slow_idx).

Section Kmeans.

(** ** The library computations that are parameters *)

(** The distance between a point and a center as
    [pairwise_distances_argmin] computes it in float64, a function of
    the two rows (whether it is squared or not makes no difference to
    what follows). *)
Variable lib_distance : vector -> vector -> float.

(** [add_reduce D col]: the sum of the column [col], which is not empty,
    of an array with [D] columns, as [mean(0)] computes it. *)
Variable add_reduce : nat -> list float -> float.

(** What is assumed of the computed distance where it matters (two
    centers that coincide): centers that are equal as numbers are
    equally far from a point, as numbers, or both distances are NaN. *)
Hypothesis lib_distance_values :
  forall x c c',
    Forall2 feq c c' ->
    same_number (lib_distance x c) (lib_distance x c') = true.

(** NumPy before 1.25 answers [False] (with a warning) when the shapes
    of [a == b] do not broadcast; later versions raise.  Both behaviours
    are covered: [strict_shapes] says which one is in force. *)
Variable strict_shapes : bool.

(** ** scikit-learn: [pairwise_distances_argmin] *)

(** The index of the center whose computed distance to [x] is least, the
    first one of them. *)
Definition nearest (centers : array) (x : vector) : nat :=
  argmin (map (lib_distance x) centers).

Definition pairwise_distances_argmin (X Y : array) : result (list nat) :=
  if check_array X && check_array Y && (ncols X =? ncols Y)
  then Ok (map (nearest Y) X)
  else Raise ValueError.

(** ** NumPy: [mean(0)] *)

(** The sum of a column; the sum of no number is 0. *)
Definition column_sum (D : nat) (col : list float) : float :=
  match col with
  | [] => 0%float
  | _ :: _ => add_reduce D col
  end.

(** [A.mean(0)] for an array [A] with [D] columns: the column sums
    divided by the number of rows.  With no row this is 0/0 in every
    column. *)
Definition mean0 (D : nat) (rows : array) : vector :=
  map (fun d => fdiv_count (column_sum D (map (fun r => nth d r NaN) rows)) (length rows))
      (seq 0 D).

(** [np.array([X[labels == i].mean(0) for i in range(n_clusters)])] *)
Definition update (X : array) (labels : list nat) (n_clusters : nat) : array :=
  map (fun i => mean0 (ncols X) (select X labels i)) (seq 0 n_clusters).

Definition centers_equal (a b : array) : result bool :=
  if shapes_ok a b then Ok (all_equal a b)
  else if strict_shapes then Raise ValueError else Ok false.

(** ** The loop of [find_clusters] *)

Inductive step_result : Type :=
| Break (centers : array) (labels : list nat)   (* 2c: converged *)
| Continue (new_centers : array)                  (* centers = new_centers *)
| Fail (e : exn).

(** One pass through the body of [while True]. *)
Definition step (X : array) (n_clusters : nat) (centers : array) : step_result :=
  match pairwise_distances_argmin X centers with
  | Raise e => Fail e
  | Ok labels =>
      let new_centers := update X labels n_clusters in
      match centers_equal centers new_centers with
      | Raise e => Fail e
      | Ok true => Break centers labels
      | Ok false => Continue new_centers
      end
  end.

(** [while True] with at most [fuel] passes. *)
Fixpoint loop (fuel : nat) (X : array) (n_clusters : nat) (centers : array)
  : outcome (array * list nat) :=
  match fuel with
  | O => OutOfFuel
  | S fuel' =>
      match step X n_clusters centers with
      | Break c l => Returned (c, l)
      | Continue c' => loop fuel' X n_clusters c'
      | Fail e => Raised e
      end
  end.

(** ** Generator objects *)

(** [np.random.RandomState]: the state of a generator, its seeding and
    the draw of a permutation of [range(n)], which advances the state. *)
Variable rng_state : Type.
Variable RandomState : Z -> rng_state.
Variable rng_permutation : rng_state -> nat -> list nat * rng_state.

Hypothesis rng_permutation_perm :
  forall g n, Permutation (fst (rng_permutation g n)) (seq 0 n).

(** The generator objects of the interpreter, by address; NumPy's global
    generator and every generator of the caller live here. *)
Definition store := list rng_state.
Definition addr := nat.

Definition M (A : Type) : Type := store -> outcome A * store.

Definition ret {A : Type} (a : A) : M A := fun s => (Returned a, s).

Definition bind {A B : Type} (m : M A) (k : A -> M B) : M B :=
  fun s =>
    match m s with
    | (Returned a, s') => k a s'
    | (Raised e, s') => (Raised e, s')
    | (OutOfFuel, s') => (OutOfFuel, s')
    end.

Notation "x <- m ;; k" := (bind m (fun x => k))
  (at level 61, m at next level, right associativity).

Definition lift_result {A : Type} (r : result A) : M A :=
  fun s => match r with Ok a => (Returned a, s) | Raise e => (Raised e, s) end.

Definition lift_outcome {A : Type} (o : outcome A) : M A := fun s => (o, s).

Fixpoint set_nth {A : Type} (n : nat) (a : A) (l : list A) : list A :=
  match l, n with
  | [], _ => []
  | _ :: l', O => a :: l'
  | b :: l', S n' => b :: set_nth n' a l'
  end.

(** [np.random.RandomState(seed)]: a new generator object. *)
Definition new_RandomState (seed : Z) : M addr :=
  fun s => (Returned (length s), s ++ [RandomState seed]).

(** [rng.permutation(n)] on the generator at address [rng]. *)
Definition permutation (rng : addr) (n : nat) : M (list nat) :=
  fun s =>
    match nth_error s rng with
    | Some g => let (p, g') := rng_permutation g n in (Returned p, set_nth rng g' s)
    | None => (Raised BadHandle, s)
    end.

(** ** [find_clusters] *)

(** Step 1 of the function: seed a new generator, draw a permutation of
    the row indices, keep its first [n_clusters] entries and take these
    rows as the centers. *)
Definition init_centers (X : array) (n_clusters : nat) (rseed : Z) : M array :=
  rng <- new_RandomState rseed ;;
  p <- permutation rng (nrows X) ;;
  let i := firstn n_clusters p in
  lift_result (take_rows X i).

Definition find_clusters (fuel : nat) (X : array) (n_clusters : nat) (rseed : Z)
  : M (array * list nat) :=
  centers <- init_centers X n_clusters rseed ;;
  lift_outcome (loop fuel X n_clusters centers).

(** The call [find_clusters(X, n_clusters)], with the default [rseed=2]. *)
Definition find_clusters_default (fuel : nat) (X : array) (n_clusters : nat)
  : M (array * list nat) :=
  find_clusters fuel X n_clusters 2%Z.

(** The value of the variable [centers] after [t] complete passes that
    ended in [centers = new_centers]. *)
Fixpoint centers_at (t : nat) (X : array) (n_clusters : nat) (centers : array)
  : option array :=
  match t with
  | O => Some centers
  | S t' =>
      match step X n_clusters centers with
      | Continue c' => centers_at t' X n_clusters c'
      | _ => None
      end
  end.

(** ** Passes without rounding *)

(** In the pass that starts from [centers], the labels computed are
    those of nearest centers and the means computed are the exact
    means: no rounding has changed the outcome of the two steps. *)
Definition exact_pass (X : array) (n_clusters : nat) (centers : array) : Prop :=
  forall labels,
    pairwise_distances_argmin X centers = Ok labels ->
    nearest_labels X centers labels /\
    exact_means X labels (update X labels n_clusters).

(** * Properties *)

Unset Implicit Arguments.

(** ** Floats *)

(** The comparison of two floats that are not NaN is the lexicographic
    comparison of their keys. *)
Lemma SFcompare_key (x y : spec_float) :
  sf_nan x = false -> sf_nan y = false ->
  exists c, SFcompare x y = Some c /\
    (c = Lt <-> lexlt (key x) (key y)) /\
    (c = Eq <-> key x = key y) /\
    (c = Gt <-> lexlt (key y) (key x)).
Proof.
  intros Hx Hy.
  destruct x as [sx|sx| |sx mx ex], y as [sy|sy| |sy my ey]; try discriminate;
    cbn [SFcompare key].
  all: try (destruct sx; destruct sy; eexists; (split; [reflexivity|]);
            cbn [lexlt]; repeat split; intros; try discriminate; try lia; try congruence;
            fail).
  all: try (destruct sx; eexists; (split; [reflexivity|]);
            cbn [lexlt]; repeat split; intros; try discriminate; try lia; try congruence;
            fail).
  all: try (destruct sy; eexists; (split; [reflexivity|]);
            cbn [lexlt]; repeat split; intros; try discriminate; try lia; try congruence;
            fail).
  destruct sx, sy; eexists; (split; [reflexivity|]); cbn [lexlt].
  - change (Pos.compare_cont Eq mx my) with (Pos.compare mx my).
    destruct (Z.compare_spec ex ey) as [He|He|He];
      destruct (Pos.compare_spec mx my) as [Hm|Hm|Hm]; cbn [CompOpp];
      repeat split; intros; try discriminate; try lia; try congruence;
      try (injection H; lia).
  - repeat split; intros; try discriminate; try lia; try congruence.
  - repeat split; intros; try discriminate; try lia; try congruence.
  - change (Pos.compare_cont Eq mx my) with (Pos.compare mx my).
    destruct (Z.compare_spec ex ey) as [He|He|He];
      destruct (Pos.compare_spec mx my) as [Hm|Hm|Hm];
      repeat split; intros; try discriminate; try lia; try congruence;
      try (injection H; lia).
Qed.

Lemma SFcompare_nan_l (y : spec_float) : SFcompare S754_nan y = None.
Proof. now destruct y. Qed.

Lemma SFcompare_nan_r (x : spec_float) : SFcompare x S754_nan = None.
Proof. now destruct x. Qed.

Lemma sf_nan_inv (x : spec_float) : sf_nan x = true -> x = S754_nan.
Proof. now destruct x. Qed.

Lemma is_nan_spec (f : float) : is_nan f = sf_nan (Prim2SF f).
Proof.
  unfold is_nan. rewrite eqb_spec. unfold SFeqb.
  destruct (sf_nan (Prim2SF f)) eqn:E.
  - apply sf_nan_inv in E. rewrite E. reflexivity.
  - destruct (SFcompare_key (Prim2SF f) (Prim2SF f) E E) as (c & -> & _ & Heq & _).
    assert (Hc : c = Eq) by now apply Heq.
    rewrite Hc. reflexivity.
Qed.

(** The three comparisons, on keys. *)
Lemma compare_cases (a b : float) :
  (is_nan a = true \/ is_nan b = true) /\ SFcompare (Prim2SF a) (Prim2SF b) = None \/
  is_nan a = false /\ is_nan b = false /\
  exists c, SFcompare (Prim2SF a) (Prim2SF b) = Some c /\
    (c = Lt <-> lexlt (fkey a) (fkey b)) /\
    (c = Eq <-> fkey a = fkey b) /\
    (c = Gt <-> lexlt (fkey b) (fkey a)).
Proof.
  rewrite !is_nan_spec. unfold fkey.
  destruct (sf_nan (Prim2SF a)) eqn:Ea.
  { left. apply sf_nan_inv in Ea. rewrite Ea, SFcompare_nan_l. auto. }
  destruct (sf_nan (Prim2SF b)) eqn:Eb.
  { left. apply sf_nan_inv in Eb. rewrite Eb, SFcompare_nan_r. auto. }
  right. repeat split. exact (SFcompare_key _ _ Ea Eb).
Qed.

Lemma fltb_spec (a b : float) :
  fltb a b = true <->
  is_nan a = false /\ is_nan b = false /\ lexlt (fkey a) (fkey b).
Proof.
  unfold fltb. rewrite ltb_spec. unfold SFltb.
  destruct (compare_cases a b) as [[Hn ->]|(Ha & Hb & c & -> & Hlt & _)].
  - split; [discriminate|]. intros (H1 & H2 & _). destruct Hn; congruence.
  - split.
    + destruct c; try discriminate. intros _. repeat split; auto. now apply Hlt.
    + intros (_ & _ & H). apply Hlt in H. now rewrite H.
Qed.


Lemma feqb_spec (a b : float) :
  feqb a b = true <->
  is_nan a = false /\ is_nan b = false /\ fkey a = fkey b.
Proof.
  unfold feqb. rewrite eqb_spec. unfold SFeqb.
  destruct (compare_cases a b) as [[Hn ->]|(Ha & Hb & c & -> & _ & Heq & _)].
  - split; [discriminate|]. intros (H1 & H2 & _). destruct Hn; congruence.
  - split.
    + destruct c; try discriminate. intros _. repeat split; auto. now apply Heq.
    + intros (_ & _ & H). apply Heq in H. now rewrite H.
Qed.

(** Reasoning on keys is linear arithmetic. *)
Ltac keys :=
  unfold lexlt in *;
  repeat match goal with
         | H : context [fkey ?a] |- _ =>
             let k1 := fresh "k" in let k2 := fresh "k" in let k3 := fresh "k" in
             destruct (fkey a) as [[k1 k2] k3]
         | |- context [fkey ?a] =>
             let k1 := fresh "k" in let k2 := fresh "k" in let k3 := fresh "k" in
             destruct (fkey a) as [[k1 k2] k3]
         end;
  repeat match goal with
         | H : (_, _, _) = (_, _, _) |- _ => injection H as ? ? ?
         end;
  try lia.

Lemma fltb_irrefl (a : float) : fltb a a = false.
Proof.
  apply not_true_is_false. rewrite fltb_spec. intros (_ & _ & H). keys.
Qed.

Lemma fltb_trans (a b c : float) :
  fltb a b = true -> fltb b c = true -> fltb a c = true.
Proof.
  rewrite !fltb_spec. intros (Ha & Hb & H1) (_ & Hc & H2). repeat split; auto. keys.
Qed.

Lemma fltb_asym (a b : float) : fltb a b = true -> fltb b a = false.
Proof.
  intros H. apply not_true_is_false. intros H'.
  pose proof (fltb_trans _ _ _ H H') as Haa.
  rewrite fltb_irrefl in Haa. discriminate.
Qed.

Lemma fltb_not_nan (a b : float) :
  fltb a b = true -> is_nan a = false /\ is_nan b = false.
Proof. rewrite fltb_spec. intros (Ha & Hb & _). now split. Qed.

(** Below [b], and [c] is not below [b]: below [c], unless [c] is NaN. *)
Lemma fltb_below (a b c : float) :
  fltb a b = true -> fltb c b = false -> is_nan c = false -> fltb a c = true.
Proof.
  intros Hab Hcb Hc. apply fltb_spec in Hab as (Ha & Hb & Hab).
  apply fltb_spec. repeat split; auto.
  assert (Hn : ~ lexlt (fkey c) (fkey b)).
  { intros H. rewrite (proj2 (fltb_spec c b)) in Hcb; [discriminate | auto]. }
  keys.
Qed.

Lemma feq_not_nan (a b : float) : feq a b -> is_nan b = false.
Proof. unfold feq. rewrite feqb_spec. now intros (_ & Hb & _). Qed.

Lemma feq_not_nan_l (a b : float) : feq a b -> is_nan a = false.
Proof. unfold feq. rewrite feqb_spec. now intros (Ha & _). Qed.

Lemma feq_refl (a : float) : is_nan a = false -> feq a a.
Proof. intros H. unfold feq. rewrite feqb_spec. auto. Qed.

Lemma finite_not_nan (a : float) : is_finite a = true -> is_nan a = false.
Proof.
  unfold is_finite. rewrite negb_true_iff, orb_false_iff. now intros [H _].
Qed.

(** *** The results of the operations *)













(** *** The maximum *)






(** ** The generator objects *)

Lemma nth_error_app_last (A : Type) (s : list A) (a : A) :
  nth_error (s ++ [a]) (length s) = Some a.
Proof.
  rewrite nth_error_app2 by lia. now rewrite Nat.sub_diag.
Qed.

Lemma set_nth_app_last (A : Type) (s : list A) (a b : A) :
  set_nth (length s) b (s ++ [a]) = s ++ [b].
Proof.
  induction s as [|x s IH]; simpl; [reflexivity | now rewrite IH].
Qed.

Lemma take_rows_in_range (X : array) (idx : list nat) :
  Forall (fun j => j < nrows X) idx ->
  take_rows X idx = Ok (map (fun j => nth j X []) idx).
Proof.
  induction 1 as [|j idx Hj _ IH]; simpl; [reflexivity|].
  rewrite IH.
  destruct (nth_error X j) as [r|] eqn:E.
  - now rewrite (nth_error_nth _ _ _ E).
  - apply nth_error_None in E. unfold nrows in Hj. lia.
Qed.

Lemma In_firstn (A : Type) (k : nat) (l : list A) (x : A) :
  In x (firstn k l) -> In x l.
Proof.
  revert l. induction k as [|k IH]; intros [|a l]; simpl; try (intros []; fail).
  intros [H|H]; [now left | right; now apply IH].
Qed.

Lemma drawn_in_range (g : rng_state) (n k : nat) :
  Forall (fun j => j < n) (firstn k (fst (rng_permutation g n))).
Proof.
  apply Forall_forall. intros j Hj.
  apply In_firstn in Hj as Hin.
  apply (Permutation_in _ (rng_permutation_perm g n)) in Hin.
  apply in_seq in Hin. lia.
Qed.

Lemma NoDup_firstn (A : Type) (k : nat) (l : list A) :
  NoDup l -> NoDup (firstn k l).
Proof.
  intros H. revert k. induction H as [|a l Ha _ IH]; intros [|k]; simpl;
    try constructor.
  - intros Hin. apply Ha. now apply In_firstn in Hin.
  - apply IH.
Qed.

Lemma drawn_NoDup (g : rng_state) (n k : nat) :
  NoDup (firstn k (fst (rng_permutation g n))).
Proof.
  apply NoDup_firstn.
  apply (Permutation_NoDup (Permutation_sym (rng_permutation_perm g n))).
  apply seq_NoDup.
Qed.

Lemma drawn_length (g : rng_state) (n k : nat) :
  length (firstn k (fst (rng_permutation g n))) = Nat.min k n.
Proof.
  rewrite length_firstn, (Permutation_length (rng_permutation_perm g n)), length_seq.
  reflexivity.
Qed.

(** What step 1 does to the store and what it returns. *)
Lemma init_centers_run (X : array) (K : nat) (seed : Z) (s : store) :
  init_centers X K seed s =
  (Returned (map (fun j => nth j X [])
               (firstn K (fst (rng_permutation (RandomState seed) (nrows X))))),
   s ++ [snd (rng_permutation (RandomState seed) (nrows X))]).
Proof.
  unfold init_centers, bind, new_RandomState, permutation, lift_result.
  rewrite nth_error_app_last.
  destruct (rng_permutation (RandomState seed) (nrows X)) as [p g'] eqn:E.
  rewrite set_nth_app_last. simpl.
  pose proof (drawn_in_range (RandomState seed) (nrows X) K) as H.
  rewrite E in H. simpl in H.
  now rewrite (take_rows_in_range _ _ H).
Qed.

Lemma find_clusters_run (fuel : nat) (X : array) (K : nat) (seed : Z) (s : store) :
  find_clusters fuel X K seed s =
  (loop fuel X K
     (map (fun j => nth j X [])
        (firstn K (fst (rng_permutation (RandomState seed) (nrows X))))),
   s ++ [snd (rng_permutation (RandomState seed) (nrows X))]).
Proof.
  unfold find_clusters, bind. now rewrite init_centers_run.
Qed.

(** ** Shapes and validation *)

Lemma is_rect_matrix (A : array) :
  is_rect A = true -> matrix (ncols A) A.
Proof.
  unfold is_rect, matrix. rewrite forallb_forall, Forall_forall.
  intros H r Hr. apply Nat.eqb_eq. now apply H.
Qed.

Lemma check_array_inv (A : array) :
  check_array A = true ->
  matrix (ncols A) A /\ 1 <= nrows A /\ 1 <= ncols A /\ all_finite A = true.
Proof.
  unfold check_array. rewrite !andb_true_iff, !Nat.leb_le.
  intros [[[H1 H2] H3] H4]. auto using is_rect_matrix.
Qed.

Lemma argmin_ok_inv (X Y : array) (l : list nat) :
  pairwise_distances_argmin X Y = Ok l ->
  check_array X = true /\ check_array Y = true /\ ncols X = ncols Y /\
  l = map (nearest Y) X.
Proof.
  unfold pairwise_distances_argmin.
  destruct (check_array X); [|discriminate].
  destruct (check_array Y); [|discriminate].
  destruct (ncols X =? ncols Y) eqn:E; [|discriminate].
  simpl. intros [= <-]. apply Nat.eqb_eq in E. auto.
Qed.

Lemma argmin_raise_inv (X Y : array) (e : exn) :
  pairwise_distances_argmin X Y = Raise e -> e = ValueError.
Proof.
  unfold pairwise_distances_argmin.
  destruct (_ && _ && _); [discriminate | now intros [= <-]].
Qed.

Lemma argmin_rejects (X Y : array) :
  check_array X = false \/ check_array Y = false ->
  pairwise_distances_argmin X Y = Raise ValueError.
Proof.
  unfold pairwise_distances_argmin.
  intros [-> | ->]; [reflexivity | now rewrite andb_false_r].
Qed.

Lemma has_nan_not_finite (A : array) :
  has_nan A = true -> all_finite A = false.
Proof.
  unfold has_nan, all_finite. intros H.
  apply existsb_exists in H as (r & Hr & H).
  apply existsb_exists in H as (f & Hf & H).
  apply not_true_is_false. intros Hall.
  rewrite forallb_forall in Hall. specialize (Hall r Hr).
  rewrite forallb_forall in Hall. specialize (Hall f Hf).
  unfold is_finite in Hall. rewrite H in Hall. discriminate.
Qed.

Lemma not_finite_rejected (A : array) :
  all_finite A = false -> check_array A = false.
Proof.
  unfold check_array. intros ->. apply andb_false_r.
Qed.

(** ** The loop: fuel *)

Lemma loop_more_fuel (n m : nat) (X : array) (K : nat) (c : array) :
  loop n X K c <> OutOfFuel -> loop (n + m) X K c = loop n X K c.
Proof.
  revert c. induction n as [|n IH]; intros c; simpl; [congruence|].
  destruct (step X K c); auto.
Qed.

Lemma loop_fuel_agree (n m : nat) (X : array) (K : nat) (c : array) :
  loop n X K c <> OutOfFuel -> loop m X K c <> OutOfFuel ->
  loop n X K c = loop m X K c.
Proof.
  intros Hn Hm. destruct (Nat.le_ge_cases n m) as [H|H].
  - replace m with (n + (m - n)) by lia. symmetry. now apply loop_more_fuel.
  - replace n with (m + (n - m)) by lia. now apply loop_more_fuel.
Qed.

Lemma loop_centers_at (t n : nat) (X : array) (K : nat) (c c' : array) :
  centers_at t X K c = Some c' ->
  loop (t + n) X K c = loop n X K c'.
Proof.
  revert c. induction t as [|t IH]; intros c; simpl.
  - now intros [= ->].
  - destruct (step X K c); try discriminate. apply IH.
Qed.

Lemma step_fail_inv (X : array) (K : nat) (c : array) (e : exn) :
  step X K c = Fail e -> e = ValueError.
Proof.
  unfold step, centers_equal.
  destruct (pairwise_distances_argmin X c) as [l|e'] eqn:E.
  - destruct (shapes_ok _ _).
    + destruct (all_equal _ _); discriminate.
    + destruct strict_shapes; [now intros [= <-] | discriminate].
  - intros [= <-]. eapply argmin_raise_inv; eauto.
Qed.

Lemma step_break_inv (X : array) (K : nat) (c c' : array) (l : list nat) :
  step X K c = Break c' l ->
  c' = c /\ pairwise_distances_argmin X c = Ok l /\
  centers_equal c (update X l K) = Ok true.
Proof.
  unfold step.
  destruct (pairwise_distances_argmin X c) as [l0|e]; [|discriminate].
  destruct (centers_equal c (update X l0 K)) as [[|]|e] eqn:E; try discriminate.
  intros [= <- <-]. auto.
Qed.

Lemma step_continue_inv (X : array) (K : nat) (c c' : array) :
  step X K c = Continue c' ->
  exists l, pairwise_distances_argmin X c = Ok l /\ c' = update X l K /\
            centers_equal c c' = Ok false.
Proof.
  unfold step.
  destruct (pairwise_distances_argmin X c) as [l0|e]; [|discriminate].
  destruct (centers_equal c (update X l0 K)) as [[|]|e] eqn:E; try discriminate.
  intros [= <-]. eauto.
Qed.

(** ** The nearest center *)

(** The scan returns either the index held so far, when nothing smaller
    follows, or the first position of the smallest element that follows. *)
Lemma argmin_from_spec (l : list float) (best : float) (bi i : nat) :
  (argmin_from best bi i l = bi /\
   forall j, j < length l -> fltb (nth j l NaN) best = false) \/
  (exists j, argmin_from best bi i l = i + j /\ j < length l /\
     fltb (nth j l NaN) best = true /\
     (forall j', j' < j -> is_nan (nth j' l NaN) = false ->
                 fltb (nth j l NaN) (nth j' l NaN) = true) /\
     (forall j', j' < length l -> fltb (nth j' l NaN) (nth j l NaN) = false)).
Proof.
  revert best bi i. induction l as [|d l IH]; intros best bi i; cbn [argmin_from length].
  - left. split; [reflexivity | intros j Hj; lia].
  - destruct (fltb d best) eqn:E.
    + right.
      destruct (IH d i (S i)) as [[Hr Hall] | (j & Hr & Hj & Hlt & Hbefore & Hall)].
      * exists 0. rewrite Hr. cbn [nth]. repeat split; try lia; try assumption.
        intros [|j'] Hj'; [apply fltb_irrefl | apply Hall; lia].
      * exists (S j). rewrite Hr. cbn [nth]. repeat split; try lia.
        -- eapply fltb_trans; eauto.
        -- intros [|j'] Hj' Hn; [assumption | apply Hbefore; [lia | assumption]].
        -- intros [|j'] Hj'; [now apply fltb_asym | apply Hall; lia].
    + destruct (IH best bi (S i)) as [[Hr Hall] | (j & Hr & Hj & Hlt & Hbefore & Hall)].
      * left. split; [assumption|].
        intros [|j'] Hj'; [assumption | apply Hall; lia].
      * right. exists (S j). rewrite Hr. cbn [nth]. repeat split; try lia; try assumption.
        -- intros [|j'] Hj' Hn; [|apply Hbefore; [lia | assumption]].
           eapply fltb_below; eauto.
        -- intros [|j'] Hj'; [|apply Hall; lia].
           apply not_true_is_false. intros Hd.
           rewrite (fltb_trans _ _ _ Hd Hlt) in E. discriminate.
Qed.

(** The argmin is an index of the row; no distance is less than the one
    it points to; every distance before it that is a number is greater;
    and when it is not the first index, its own distance is a number. *)
Lemma argmin_spec (l : list float) :
  l <> [] ->
  argmin l < length l /\
  (forall k, k < length l -> fltb (nth k l NaN) (nth (argmin l) l NaN) = false) /\
  (forall k, k < argmin l -> is_nan (nth k l NaN) = false ->
             fltb (nth (argmin l) l NaN) (nth k l NaN) = true) /\
  (0 < argmin l -> is_nan (nth (argmin l) l NaN) = false).
Proof.
  destruct l as [|d l]; [congruence | intros _]. unfold argmin.
  destruct (argmin_from_spec l d 0 1) as [[Hr Hall] | (j & Hr & Hj & Hlt & Hbefore & Hall)];
    rewrite Hr; cbn [length nth Nat.add].
  - repeat split; try lia.
    intros [|k] Hk; [apply fltb_irrefl | apply Hall; lia].
  - repeat split; try lia.
    + intros [|k] Hk; [now apply fltb_asym | apply Hall; lia].
    + intros [|k] Hk Hn; [assumption | apply Hbefore; [lia | assumption]].
    + intros _. now apply fltb_not_nan in Hlt.
Qed.

Lemma nth_map_default (A B : Type) (f : A -> B) (l : list A) (d : nat) (da : A) (db : B) :
  d < length l -> nth d (map f l) db = f (nth d l da).
Proof.
  intros H. rewrite (nth_indep _ db (f da)) by now rewrite length_map.
  apply map_nth.
Qed.


Lemma nearest_spec (centers : array) (x : vector) :
  centers <> [] ->
  nearest centers x < nrows centers /\
  (forall k, k < nrows centers ->
     fltb (lib_distance x (nth k centers []))
          (lib_distance x (nth (nearest centers x) centers [])) = false) /\
  (forall k, k < nearest centers x ->
     is_nan (lib_distance x (nth k centers [])) = false ->
     fltb (lib_distance x (nth (nearest centers x) centers []))
          (lib_distance x (nth k centers [])) = true) /\
  (0 < nearest centers x ->
   is_nan (lib_distance x (nth (nearest centers x) centers [])) = false).
Proof.
  intros Hne. unfold nearest, nrows.
  destruct (argmin_spec (map (lib_distance x) centers)) as (H1 & H2 & H3 & H4).
  { destruct centers; [congruence | discriminate]. }
  rewrite length_map in H1, H2.
  set (n := argmin (map (lib_distance x) centers)) in *.
  assert (Hd : forall k, k < length centers ->
             nth k (map (lib_distance x) centers) NaN = lib_distance x (nth k centers [])).
  { intros k Hk. now apply nth_map_default. }
  repeat split; [assumption | | |].
  - intros k Hk. rewrite <- !Hd by assumption. now apply H2.
  - intros k Hk Hn. rewrite <- !Hd by lia. apply H3; [assumption|].
    now rewrite Hd by lia.
  - intros Hpos. rewrite <- Hd by assumption. now apply H4.
Qed.

(** ** Means of rows *)

Lemma select_incl (X : array) (l : list nat) (k : nat) (r : vector) :
  In r (select X l k) -> In r X.
Proof.
  unfold select. intros H. apply in_map_iff in H as ([r' j] & <- & H).
  apply filter_In in H as [H _]. now apply in_combine_l in H.
Qed.

Lemma select_matrix (D : nat) (X : array) (l : list nat) (k : nat) :
  matrix D X -> matrix D (select X l k).
Proof.
  unfold matrix. rewrite !Forall_forall. eauto using select_incl.
Qed.


Lemma mean0_length (D : nat) (rows : array) : length (mean0 D rows) = D.
Proof. unfold mean0. now rewrite length_map, length_seq. Qed.

(** The mean of no row at all: [0/0] in every column. *)
Lemma mean0_empty (D : nat) : mean0 D [] = repeat NaN D.
Proof.
  unfold mean0. cbn [map length column_sum].
  assert (H : forall s, map (fun _ : nat => fdiv_count 0%float 0) (seq s D) = repeat NaN D).
  { induction D as [|D IH]; intros s; cbn [seq map repeat]; [reflexivity|].
    now rewrite IH. }
  apply H.
Qed.

Lemma update_nrows (X : array) (l : list nat) (K : nat) :
  nrows (update X l K) = K.
Proof.
  unfold update, nrows. now rewrite length_map, length_seq.
Qed.

Lemma update_nth (X : array) (l : list nat) (K k : nat) :
  k < K -> nth k (update X l K) [] = mean0 (ncols X) (select X l k).
Proof.
  intros H. unfold update.
  rewrite (@nth_map_default _ _ _ _ _ 0) by now rewrite length_seq.
  now rewrite seq_nth.
Qed.

Lemma update_matrix (X : array) (l : list nat) (K : nat) :
  matrix (ncols X) (update X l K).
Proof.
  unfold matrix, update. apply Forall_forall. intros r Hr.
  apply in_map_iff in Hr as (k & <- & _). apply mean0_length.
Qed.

(** ** The convergence test *)

Lemma broadcast_same (A : Type) (n : nat) (l : list A) :
  length l = n -> broadcast n l = l.
Proof.
  destruct l as [|a [|b l]]; simpl; intros <-; reflexivity.
Qed.

Lemma forallb_combine_Forall2 (A B : Type) (f : A -> B -> bool) (l : list A) (m : list B) :
  length l = length m ->
  forallb (fun p => f (fst p) (snd p)) (combine l m) = true ->
  Forall2 (fun a b => f a b = true) l m.
Proof.
  revert m. induction l as [|a l IH]; intros [|b m]; simpl; try discriminate.
  - constructor.
  - intros [= Hlen] H. apply andb_true_iff in H as [H1 H2]. constructor; auto.
Qed.

Lemma Forall2_forallb_combine (A B : Type) (f : A -> B -> bool) (l : list A) (m : list B) :
  Forall2 (fun a b => f a b = true) l m ->
  forallb (fun p => f (fst p) (snd p)) (combine l m) = true.
Proof.
  induction 1; simpl; [reflexivity | now apply andb_true_iff].
Qed.

Lemma row_eqb_feq (D : nat) (r s : vector) :
  length r = D -> length s = D ->
  (row_eqb D r s = true <-> Forall2 feq r s).
Proof.
  intros Hr Hs. unfold row_eqb. rewrite !broadcast_same by assumption. split.
  - apply forallb_combine_Forall2. congruence.
  - apply Forall2_forallb_combine.
Qed.

Lemma ncols_matrix (D : nat) (A : array) :
  matrix D A -> 1 <= nrows A -> ncols A = D.
Proof.
  destruct A as [|r A]; simpl; [lia|]. intros H _. now inversion H.
Qed.

Lemma bshape_same (n : nat) : bshape n n = n.
Proof. unfold bshape. now destruct (n =? 1). Qed.

Lemma rows_no_nan (rs : list vector) (c' : array) :
  Forall2 (Forall2 feq) rs c' -> has_nan c' = false.
Proof.
  induction 1 as [|r r' rs c' Hr _ IH]; simpl; [reflexivity|].
  rewrite IH, orb_false_r.
  induction Hr as [|a b r r' Hab _ IHr]; simpl; [reflexivity|].
  now rewrite (feq_not_nan _ _ Hab), IHr.
Qed.

Lemma Forall2_row_eqb (D : nat) (a b : array) :
  matrix D a -> matrix D b ->
  Forall2 (fun r s => row_eqb D r s = true) a b -> Forall2 (Forall2 feq) a b.
Proof.
  intros Ha Hb H. induction H as [|r s a b Hrs _ IH]; constructor.
  - inversion Ha; inversion Hb; subst. now apply (row_eqb_feq (length r)).
  - inversion Ha; inversion Hb; subst. auto.
Qed.

Lemma matrix_repeat (D n : nat) (r : vector) :
  length r = D -> matrix D (repeat r n).
Proof.
  intros H. unfold matrix. apply Forall_forall. intros x Hx.
  now apply repeat_spec in Hx as ->.
Qed.

Lemma rows_no_nan_l (a : array) (rs : list vector) :
  Forall2 (Forall2 feq) a rs -> has_nan a = false.
Proof.
  induction 1 as [|r r' a rs Hr _ IH]; simpl; [reflexivity|].
  rewrite IH, orb_false_r.
  induction Hr as [|x y r r' Hxy _ IHr]; simpl; [reflexivity|].
  now rewrite (feq_not_nan_l _ _ Hxy), IHr.
Qed.

(** When the test [np.all(a == b)] answers [True] on two arrays with [D]
    columns, neither holds a NaN, and with equally many rows the arrays
    are equal entry by entry. *)
Lemma all_equal_true_inv (D : nat) (a b : array) :
  matrix D a -> matrix D b -> 1 <= D -> 1 <= nrows a -> 1 <= nrows b ->
  shapes_ok a b = true -> all_equal a b = true ->
  has_nan a = false /\ has_nan b = false /\
  (nrows a = nrows b -> Forall2 (Forall2 feq) a b).
Proof.
  intros Ha Hb HD Hna Hnb Hs H.
  unfold all_equal in H.
  rewrite (ncols_matrix _ _ Ha Hna), (ncols_matrix _ _ Hb Hnb), bshape_same in H.
  unfold shapes_ok, compatible in Hs.
  apply andb_true_iff in Hs as [Hs _].
  apply orb_true_iff in Hs as [Hs|Hs]; [apply orb_true_iff in Hs as [Hs|Hs]|];
    apply Nat.eqb_eq in Hs.
  - (* as many rows *)
    rewrite Hs, bshape_same in H.
    rewrite !broadcast_same in H by (unfold nrows in *; lia).
    apply forallb_combine_Forall2 in H; [|unfold nrows in *; lia].
    apply (Forall2_row_eqb _ _ _ Ha Hb) in H.
    repeat split; [eapply rows_no_nan_l | eapply rows_no_nan | ]; eauto.
  - (* [a] has one row, stretched *)
    unfold bshape in H. rewrite Hs in H. simpl in H.
    destruct a as [|r [|r' a]]; try discriminate.
    rewrite (broadcast_same _ (nrows b) b) in H by reflexivity.
    cbn [broadcast] in H.
    apply forallb_combine_Forall2 in H; [|now rewrite repeat_length].
    apply Forall2_row_eqb in H; auto.
    + repeat split; [ | eapply rows_no_nan; eauto | ].
      * destruct b as [|s b]; [simpl in Hnb; lia|].
        cbn in H. inversion H as [|? ? ? ? Hrs _]; subst.
        eapply (rows_no_nan_l _ [s]). constructor; [eassumption | constructor].
      * intros Heq. cbn in Heq. rewrite <- Heq in H. exact H.
    + apply matrix_repeat. now inversion Ha.
  - (* [b] has one row, stretched *)
    destruct b as [|s [|s' b]]; try discriminate.
    assert (Hn : bshape (nrows a) (nrows [s]) = nrows a).
    { unfold bshape. destruct (nrows a =? 1) eqn:E; [|reflexivity].
      apply Nat.eqb_eq in E. now rewrite E. }
    rewrite Hn in H.
    rewrite (broadcast_same _ (nrows a) a) in H by reflexivity.
    cbn [broadcast] in H.
    apply forallb_combine_Forall2 in H; [|now rewrite repeat_length].
    apply Forall2_row_eqb in H; auto.
    + repeat split; [eapply rows_no_nan_l; eauto | | ].
      * destruct a as [|r a]; [simpl in Hna; lia|].
        cbn in H. inversion H as [|? ? ? ? Hrs _]; subst.
        eapply (rows_no_nan [r] _). constructor; [eassumption | constructor].
      * intros Heq. cbn in Heq. rewrite Heq in H. exact H.
    + apply matrix_repeat. now inversion Hb.
Qed.

Lemma centers_equal_true_inv (a b : array) :
  centers_equal a b = Ok true -> shapes_ok a b = true /\ all_equal a b = true.
Proof.
  unfold centers_equal. destruct (shapes_ok a b).
  - now intros [= ->].
  - destruct strict_shapes; discriminate.
Qed.

(** A NaN on either side makes the test fail. *)
Lemma nan_never_equal (D : nat) (a b : array) :
  matrix D a -> matrix D b -> 1 <= D -> 1 <= nrows a -> 1 <= nrows b ->
  has_nan a = true \/ has_nan b = true ->
  centers_equal a b <> Ok true.
Proof.
  intros Ha Hb HD Hna Hnb Hnan H.
  apply centers_equal_true_inv in H as [Hs H].
  destruct (all_equal_true_inv _ _ _ Ha Hb HD Hna Hnb Hs H) as (H1 & H2 & _).
  destruct Hnan; congruence.
Qed.

(** ** One pass of the loop *)

Lemma labels_in_range (X c : array) (l : list nat) :
  pairwise_distances_argmin X c = Ok l ->
  length l = nrows X /\ Forall (fun j => j < nrows c) l.
Proof.
  intros H. apply argmin_ok_inv in H as (_ & Hc & _ & ->).
  split; [apply length_map|].
  apply Forall_forall. intros j Hj. apply in_map_iff in Hj as (x & <- & _).
  apply nearest_spec. apply check_array_inv in Hc as (_ & Hn & _).
  destruct c; [simpl in Hn; lia | discriminate].
Qed.

Lemma select_empty (X : array) (l : list nat) (k : nat) :
  Forall (fun j => j <> k) l -> select X l k = [].
Proof.
  unfold select. intros H. revert X.
  induction H as [|j l Hj _ IH]; intros [|x X]; simpl; try reflexivity.
  destruct (j =? k) eqn:E; [apply Nat.eqb_eq in E; congruence | apply IH].
Qed.

Lemma nan_row_has_nan (A : array) (k D : nat) :
  k < nrows A -> 1 <= D -> nth k A [] = repeat NaN D -> has_nan A = true.
Proof.
  intros Hk HD H. unfold has_nan. apply existsb_exists.
  exists (nth k A []). split; [now apply nth_In|].
  rewrite H. destruct D; [lia | reflexivity].
Qed.

Lemma update_nan_row (X : array) (l : list nat) (K k : nat) :
  k < K -> select X l k = [] ->
  nth k (update X l K) [] = repeat NaN (ncols X).
Proof.
  intros Hk H. now rewrite update_nth, H, mean0_empty.
Qed.

Lemma update_has_nan (X : array) (l : list nat) (K k : nat) :
  k < K -> select X l k = [] -> 1 <= ncols X ->
  has_nan (update X l K) = true.
Proof.
  intros Hk H HD. apply (nan_row_has_nan _ k (ncols X)); auto.
  - now rewrite update_nrows.
  - now apply update_nan_row.
Qed.

(** Fewer centers than clusters: the clusters beyond the centers are empty. *)
Lemma update_short_has_nan (X c : array) (l : list nat) (K : nat) :
  pairwise_distances_argmin X c = Ok l -> nrows c < K ->
  has_nan (update X l K) = true.
Proof.
  intros H Hlt. pose proof (labels_in_range _ _ _ H) as [_ Hl].
  apply argmin_ok_inv in H as (HX & _).
  apply check_array_inv in HX as (_ & _ & HD & _).
  apply (update_has_nan _ _ _ (nrows c)); auto.
  apply select_empty. eapply Forall_impl; [|exact Hl]. simpl. intros; lia.
Qed.

Lemma step_on_nan (X : array) (K : nat) (c : array) :
  has_nan c = true -> step X K c = Fail ValueError.
Proof.
  intros H. unfold step. rewrite argmin_rejects; [reflexivity|].
  right. now apply not_finite_rejected, has_nan_not_finite.
Qed.

Lemma step_on_invalid (X : array) (K : nat) (c : array) :
  check_array X = false -> step X K c = Fail ValueError.
Proof.
  intros H. unfold step. now rewrite argmin_rejects by auto.
Qed.

(** The shapes met by the test in a pass whose assignment succeeded. *)
Lemma step_shapes (X c : array) (l : list nat) (K : nat) :
  pairwise_distances_argmin X c = Ok l ->
  matrix (ncols X) c /\ matrix (ncols X) (update X l K) /\
  1 <= ncols X /\ 1 <= nrows c.
Proof.
  intros H. apply argmin_ok_inv in H as (HX & Hc & HD & _).
  apply check_array_inv in HX as (HmX & _ & HDX & _).
  apply check_array_inv in Hc as (Hmc & Hnc & _ & _).
  rewrite <- HD in Hmc. auto using update_matrix.
Qed.

(** A pass that leaves a cluster empty does not pass the test. *)
Lemma empty_cluster_not_equal (X c : array) (l : list nat) (K k : nat) :
  pairwise_distances_argmin X c = Ok l -> k < K -> select X l k = [] ->
  centers_equal c (update X l K) <> Ok true.
Proof.
  intros H Hk Hsel.
  destruct (step_shapes _ _ _ K H) as (Hc & Hu & HD & Hn).
  apply (nan_never_equal _ _ _ Hc Hu); auto.
  - rewrite update_nrows. lia.
  - right. eapply update_has_nan; eauto.
Qed.

Lemma nan_pass_outcome (X c : array) (l : list nat) (K : nat) :
  pairwise_distances_argmin X c = Ok l ->
  has_nan (update X l K) = true ->
  step X K c = Continue (update X l K) \/ step X K c = Fail ValueError.
Proof.
  intros H Hnan. unfold step. rewrite H.
  destruct (centers_equal c (update X l K)) as [[|]|e] eqn:E; auto.
  - exfalso. destruct (step_shapes _ _ _ K H) as (Hc & Hu & HD & Hn).
    apply (nan_never_equal _ _ _ Hc Hu) in E; auto.
    rewrite update_nrows. destruct K; [discriminate | lia].
  - right. f_equal.
    unfold centers_equal in E. destruct (shapes_ok _ _); [discriminate|].
    destruct strict_shapes; [now injection E as <- | discriminate].
Qed.

(** After such a pass the run ends with the library's exception. *)
Lemma nan_pass_raises (X c : array) (l : list nat) (K n : nat) :
  pairwise_distances_argmin X c = Ok l ->
  has_nan (update X l K) = true ->
  loop (S (S n)) X K c = Raised ValueError.
Proof.
  intros H Hnan. cbn [loop].
  destruct (nan_pass_outcome _ _ _ _ H Hnan) as [-> | ->]; [|reflexivity].
  now rewrite step_on_nan.
Qed.

Lemma nan_pass_never_returns (X c : array) (l : list nat) (K n : nat) :
  pairwise_distances_argmin X c = Ok l ->
  has_nan (update X l K) = true ->
  forall r, loop n X K c <> Returned r.
Proof.
  intros H Hnan r Hr.
  assert (Hne : loop n X K c <> OutOfFuel) by congruence.
  pose proof (loop_more_fuel _ 2 _ _ _ Hne) as Hm.
  replace (n + 2) with (2 + n) in Hm by lia.
  pose proof (loop_fuel_agree (2 + n) 2 X K c) as Ha.
  rewrite (nan_pass_raises _ _ _ _ 0 H Hnan) in Ha.
  cbn [Nat.add] in Hm, Ha. rewrite Hm, Hr in Ha.
  assert (Returned r = Raised ValueError) by (apply Ha; congruence).
  discriminate.
Qed.

Lemma check_array_intro (D : nat) (A : array) :
  matrix D A -> 1 <= nrows A -> 1 <= D -> all_finite A = true ->
  check_array A = true.
Proof.
  intros Hm Hn HD Hf. unfold check_array.
  pose proof (ncols_matrix _ _ Hm Hn) as Hc.
  rewrite Hf, Hc. rewrite !andb_true_iff, !Nat.leb_le. repeat split; auto.
  unfold is_rect. apply forallb_forall. intros r Hr. rewrite Hc.
  apply Nat.eqb_eq. unfold matrix in Hm. rewrite Forall_forall in Hm. auto.
Qed.

(** Rows taken from a valid array form a valid array. *)
Lemma check_array_take (X : array) (idx : list nat) :
  check_array X = true -> idx <> [] -> Forall (fun j => j < nrows X) idx ->
  check_array (map (fun j => nth j X []) idx) = true /\
  ncols (map (fun j => nth j X []) idx) = ncols X.
Proof.
  intros HX Hne Hidx.
  apply check_array_inv in HX as (Hm & Hn & HD & Hf).
  assert (Hin : forall r, In r (map (fun j => nth j X []) idx) -> In r X).
  { intros r Hr. apply in_map_iff in Hr as (j & <- & Hj).
    rewrite Forall_forall in Hidx. apply nth_In. now apply Hidx. }
  assert (Hm' : matrix (ncols X) (map (fun j => nth j X []) idx)).
  { unfold matrix in *. rewrite Forall_forall in *. auto. }
  assert (Hn' : 1 <= nrows (map (fun j => nth j X []) idx)).
  { unfold nrows. rewrite length_map. destruct idx; [congruence | simpl; lia]. }
  split.
  - apply (check_array_intro (ncols X)); auto.
    unfold all_finite in *. rewrite forallb_forall in *. auto.
  - now apply ncols_matrix.
Qed.

Lemma loop_unique (n m : nat) (X : array) (K : nat) (c : array)
      (r : array * list nat) (e : exn) :
  loop n X K c = Returned r -> loop m X K c = Raised e -> False.
Proof.
  intros Hn Hm.
  assert (H : loop n X K c = loop m X K c) by (apply loop_fuel_agree; congruence).
  congruence.
Qed.

Lemma init_centers_inv (X : array) (K : nat) (seed : Z) (s s' : store) (c0 : array) :
  init_centers X K seed s = (Returned c0, s') ->
  c0 = map (fun j => nth j X [])
         (firstn K (fst (rng_permutation (RandomState seed) (nrows X)))) /\
  s' = s ++ [snd (rng_permutation (RandomState seed) (nrows X))].
Proof.
  rewrite init_centers_run. now intros [= <- <-].
Qed.

Lemma init_centers_nrows (X : array) (K : nat) (seed : Z) (s s' : store) (c0 : array) :
  init_centers X K seed s = (Returned c0, s') ->
  nrows c0 = Nat.min K (nrows X).
Proof.
  intros H. apply init_centers_inv in H as [-> _].
  unfold nrows at 1. now rewrite length_map, drawn_length.
Qed.

(** ** Empty clusters *)

(** C10. If in some pass of [find_clusters] a cluster index [k] gets no
    point, the recomputed center of [k] is NaN in every component, the
    convergence test [np.all(centers == new_centers)] is not passed in
    that pass, nor in any pass in which one of the two arrays holds a
    NaN, and [find_clusters] does not return normally: whatever the
    number of passes allowed, no value is returned (the run ends with the
    exception raised by the next assignment step or by the comparison). *)
Theorem empty_cluster_never_returns :
  forall (X : array) (K : nat) (seed : Z) (s s' : store) (c0 c : array)
         (t : nat) (labels : list nat) (k : nat),
    init_centers X K seed s = (Returned c0, s') ->
    centers_at t X K c0 = Some c ->
    pairwise_distances_argmin X c = Ok labels ->
    k < K ->
    select X labels k = [] ->
    nth k (update X labels K) [] = repeat NaN (ncols X) /\
    1 <= ncols X /\
    centers_equal c (update X labels K) <> Ok true /\
    (forall a b : array,
        matrix (ncols X) a -> matrix (ncols X) b ->
        1 <= nrows a -> 1 <= nrows b ->
        has_nan a = true \/ has_nan b = true ->
        centers_equal a b <> Ok true) /\
    (forall fuel r, fst (find_clusters fuel X K seed s) <> Returned r) /\
    fst (find_clusters (t + 2) X K seed s) = Raised ValueError.
Proof.
  intros X K seed s s' c0 c t labels k Hinit Hat Hlab Hk Hsel.
  destruct (step_shapes _ _ _ K Hlab) as (_ & _ & HD & _).
  assert (Hnan : has_nan (update X labels K) = true)
    by (eapply update_has_nan; eauto).
  assert (Hraise : loop (t + 2) X K c0 = Raised ValueError).
  { rewrite (loop_centers_at t 2 X K c0 c Hat).
    exact (nan_pass_raises _ _ _ _ 0 Hlab Hnan). }
  apply init_centers_inv in Hinit as [-> _].
  repeat split.
  - now apply update_nan_row.
  - exact HD.
  - eapply empty_cluster_not_equal; eauto.
  - intros a b Ha Hb Hna Hnb Hab. eapply nan_never_equal; eauto.
  - intros fuel r. rewrite find_clusters_run. simpl. intros Hr.
    eapply loop_unique; eauto.
  - rewrite find_clusters_run. exact Hraise.
Qed.

(** C3, as the code has it.  When the update step leaves a cluster empty
    its new center is NaN in every component.  No failure is raised for
    it and nothing is repaired: unless the comparison itself raises (a
    shape mismatch under a recent NumPy), the pass ends in
    [centers = new_centers], so the NaN centers are what the next pass
    works on, and there the assignment step raises the library's
    [ValueError].  A value returned by [find_clusters] never holds a NaN
    center. *)
Theorem empty_cluster_propagates_nan :
  forall (X : array) (K : nat) (c : array) (labels : list nat) (k : nat),
    pairwise_distances_argmin X c = Ok labels ->
    k < K ->
    select X labels k = [] ->
    nth k (update X labels K) [] = repeat NaN (ncols X) /\
    1 <= ncols X /\
    (step X K c = Continue (update X labels K) \/ step X K c = Fail ValueError) /\
    (shapes_ok c (update X labels K) = true ->
     step X K c = Continue (update X labels K)) /\
    step X K (update X labels K) = Fail ValueError /\
    (forall n, loop (S (S n)) X K c = Raised ValueError) /\
    (forall fuel seed s c' l' s',
        find_clusters fuel X K seed s = (Returned (c', l'), s') ->
        all_finite c' = true).
Proof.
  intros X K c labels k Hlab Hk Hsel.
  destruct (step_shapes _ _ _ K Hlab) as (_ & _ & HD & _).
  assert (Hnan : has_nan (update X labels K) = true)
    by (eapply update_has_nan; eauto).
  repeat split.
  - now apply update_nan_row.
  - exact HD.
  - now apply nan_pass_outcome.
  - intros Hs. unfold step. rewrite Hlab.
    pose proof (empty_cluster_not_equal _ _ _ _ _ Hlab Hk Hsel) as Hne.
    unfold centers_equal in *. rewrite Hs in *.
    destruct (all_equal c (update X labels K)); [congruence | reflexivity].
  - now apply step_on_nan.
  - intros n. now apply (nan_pass_raises _ _ labels).
  - intros fuel seed s c' l' s'. rewrite find_clusters_run. intros [= Hloop _].
    clear - Hloop. revert Hloop.
    generalize (map (fun j => nth j X [])
                  (firstn K (fst (rng_permutation (RandomState seed) (nrows X))))).
    induction fuel as [|fuel IH]; intros c0; simpl; [discriminate|].
    destruct (step X K c0) as [c1 l1|c1|e] eqn:E; try discriminate.
    + intros [= -> ->]. apply step_break_inv in E as (-> & E & _).
      apply argmin_ok_inv in E as (_ & Hc & _).
      now apply check_array_inv in Hc.
    + apply IH.
Qed.

(** ** Inputs that are refused *)

(** C5, as the code has it.  With more clusters than points nothing is
    checked before the loop: step 1 selects all the points as centers,
    and on a valid array the first assignment step runs.  The update
    leaves the clusters beyond the points empty, hence NaN centers, and
    the run ends in the library's [ValueError] within two passes; no
    value is ever returned. *)
Theorem more_clusters_than_points :
  forall (X : array) (K : nat) (seed : Z) (s : store),
    nrows X < K ->
    (exists c0 s',
        init_centers X K seed s = (Returned c0, s') /\
        nrows c0 = nrows X /\
        (check_array X = true ->
         exists l0, pairwise_distances_argmin X c0 = Ok l0 /\
                    has_nan (update X l0 K) = true)) /\
    (forall n, fst (find_clusters (S (S n)) X K seed s) = Raised ValueError) /\
    (forall fuel r, fst (find_clusters fuel X K seed s) <> Returned r).
Proof.
  intros X K seed s HK.
  pose proof (init_centers_run X K seed s) as Hinit.
  set (idx := firstn K (fst (rng_permutation (RandomState seed) (nrows X)))) in *.
  set (c0 := map (fun j => nth j X []) idx) in *.
  assert (Hrows : nrows c0 = nrows X).
  { rewrite (init_centers_nrows _ _ _ _ _ _ Hinit). lia. }
  assert (Hvalid : check_array X = true ->
                   exists l0, pairwise_distances_argmin X c0 = Ok l0 /\
                              has_nan (update X l0 K) = true).
  { intros HX.
    destruct (check_array_take X idx HX) as [Hc Hcols].
    - intros Hnil. apply check_array_inv in HX as (_ & Hn & _).
      unfold c0 in Hrows. rewrite Hnil in Hrows. simpl in Hrows. lia.
    - apply drawn_in_range.
    - fold c0 in Hc, Hcols.
      assert (Hl : pairwise_distances_argmin X c0 = Ok (map (nearest c0) X)).
      { unfold pairwise_distances_argmin. now rewrite HX, Hc, Hcols, Nat.eqb_refl. }
      eexists. split; [exact Hl|].
      apply (update_short_has_nan _ _ _ _ Hl). lia. }
  assert (Hraise : forall n, loop (S (S n)) X K c0 = Raised ValueError).
  { intros n. destruct (check_array X) eqn:HX.
    - destruct (Hvalid eq_refl) as (l0 & Hl & Hnan).
      now apply (nan_pass_raises _ _ l0).
    - cbn [loop]. now rewrite step_on_invalid. }
  split; [|split].
  - exists c0, (s ++ [snd (rng_permutation (RandomState seed) (nrows X))]). auto.
  - intros n. rewrite find_clusters_run. apply Hraise.
  - intros fuel r. rewrite find_clusters_run. simpl. intros Hr.
    eapply loop_unique; [exact Hr | apply (Hraise 0)].
Qed.

(** C6, as the code has it.  [find_clusters] does not validate its
    input.  On an array with a non-finite entry step 1 is carried out as
    on any other (a generator is created, a permutation drawn, the
    centers selected); the exception comes from the library, in the
    assignment step of the first pass, and it is a [ValueError]. *)
Theorem non_finite_input :
  forall (X : array) (K : nat) (seed : Z) (s : store) (fuel : nat),
    all_finite X = false ->
    exists c0 g,
      init_centers X K seed s = (Returned c0, s ++ [g]) /\
      find_clusters (S fuel) X K seed s = (Raised ValueError, s ++ [g]).
Proof.
  intros X K seed s fuel HX.
  eexists. eexists. split; [apply init_centers_run|].
  rewrite find_clusters_run. cbn [loop].
  now rewrite step_on_invalid by now apply not_finite_rejected.
Qed.

(** ** The initial centers *)

(** C9. With [K <= N] the initial centers are the rows of [X] at [K]
    pairwise distinct indices: the first [K] entries of the permutation
    of [range(N)] drawn from the generator seeded with [rseed].  They
    depend on [X], [K] and the seed only. *)
Theorem initial_centers_distinct_points :
  forall (X : array) (K : nat) (seed : Z) (s : store),
    K <= nrows X ->
    exists (p idx : list nat) (c0 : array) (s' : store),
      init_centers X K seed s = (Returned c0, s') /\
      p = fst (rng_permutation (RandomState seed) (nrows X)) /\
      Permutation p (seq 0 (nrows X)) /\
      idx = firstn K p /\
      length idx = K /\
      NoDup idx /\
      Forall (fun j => j < nrows X) idx /\
      c0 = map (fun j => nth j X []) idx /\
      nrows c0 = K /\
      (forall s2, fst (init_centers X K seed s2) = Returned c0).
Proof.
  intros X K seed s HK.
  exists (fst (rng_permutation (RandomState seed) (nrows X))).
  eexists. eexists. eexists.
  split; [apply init_centers_run|].
  repeat split.
  - apply rng_permutation_perm.
  - rewrite drawn_length. lia.
  - apply drawn_NoDup.
  - apply drawn_in_range.
  - unfold nrows at 1. rewrite length_map, drawn_length. lia.
  - intros s2. now rewrite init_centers_run.
Qed.

(** ** Determinism *)

(** C7. The outcome of [find_clusters] is a function of [X], the number
    of clusters and the seed: it is the same whatever generator objects
    exist when the call is made, none of these objects is modified by the
    call (the only generator used is the one the call creates), and two
    runs that both come to an end agree on their outcome. *)
Theorem find_clusters_deterministic :
  forall (fuel : nat) (X : array) (K : nat) (seed : Z) (s1 s2 : store),
    fst (find_clusters fuel X K seed s1) = fst (find_clusters fuel X K seed s2) /\
    (forall a g, nth_error s1 a = Some g ->
                 nth_error (snd (find_clusters fuel X K seed s1)) a = Some g) /\
    (forall fuel',
        fst (find_clusters fuel X K seed s1) <> OutOfFuel ->
        fst (find_clusters fuel' X K seed s2) <> OutOfFuel ->
        fst (find_clusters fuel X K seed s1) = fst (find_clusters fuel' X K seed s2)).
Proof.
  intros fuel X K seed s1 s2. rewrite !find_clusters_run. simpl.
  repeat split.
  - intros a g Ha. rewrite nth_error_app1; [assumption|].
    apply nth_error_Some. congruence.
  - intros fuel'. rewrite find_clusters_run. simpl. apply loop_fuel_agree.
Qed.

(** ** The returned value *)

Lemma loop_returned_inv (fuel : nat) (X : array) (K : nat) (c0 c : array) (l : list nat) :
  loop fuel X K c0 = Returned (c, l) ->
  exists t, t < fuel /\ centers_at t X K c0 = Some c /\ step X K c = Break c l.
Proof.
  revert c0. induction fuel as [|fuel IH]; intros c0; simpl; [discriminate|].
  destruct (step X K c0) as [c1 l1|c1|e] eqn:E; try discriminate.
  - intros [= -> ->]. apply step_break_inv in E as E'. destruct E' as (-> & _).
    exists 0. split; [lia|]. split; [reflexivity | exact E].
  - intros H. destruct (IH _ H) as (t & Ht & Hat & Hs).
    exists (S t). simpl. rewrite E. repeat split; auto. lia.
Qed.

(** The variable [centers] never has more rows than there are clusters. *)
Lemma centers_at_nrows (t : nat) (X : array) (K : nat) (c0 c : array) :
  centers_at t X K c0 = Some c -> nrows c0 <= K -> nrows c <= K.
Proof.
  revert c0. induction t as [|t IH]; intros c0; simpl.
  - now intros [= ->].
  - destruct (step X K c0) as [c1 l1|c1|e] eqn:E; try discriminate.
    intros H _. apply (IH _ H).
    apply step_continue_inv in E as (l & _ & -> & _).
    now rewrite update_nrows.
Qed.

Lemma Forall2_nth_rel (A B : Type) (R : A -> B -> Prop) (l : list A) (m : list B)
      (k : nat) (da : A) (db : B) :
  Forall2 R l m -> k < length l -> R (nth k l da) (nth k m db).
Proof.
  intros H. revert k. induction H as [|a b l m Hab _ IH]; intros [|k]; simpl;
    try lia; auto.
  intros Hk. apply IH. lia.
Qed.

(** What holds when the test is passed. *)
Lemma converged_pass (X c : array) (l : list nat) (K : nat) :
  pairwise_distances_argmin X c = Ok l ->
  centers_equal c (update X l K) = Ok true ->
  nrows c <= K ->
  nrows c = K /\ has_nan (update X l K) = false /\
  Forall2 (Forall2 feq) c (update X l K).
Proof.
  intros Hl Heq Hle.
  destruct (step_shapes _ _ _ K Hl) as (Hc & Hu & HD & Hn).
  apply centers_equal_true_inv in Heq as [Hs Heq].
  destruct (all_equal_true_inv _ _ _ Hc Hu HD Hn) as (_ & Hnan & Hall); auto.
  { rewrite update_nrows. lia. }
  assert (HK : nrows c = K).
  { destruct (Nat.eq_dec (nrows c) K) as [|Hne]; [assumption|].
    rewrite (update_short_has_nan _ _ _ _ Hl) in Hnan; [discriminate | lia]. }
  repeat split; auto. apply Hall. now rewrite update_nrows.
Qed.

Lemma no_nan_clusters_nonempty (X : array) (l : list nat) (K k : nat) :
  has_nan (update X l K) = false -> 1 <= ncols X -> k < K ->
  select X l k <> [].
Proof.
  intros Hnan HD Hk Hsel.
  rewrite (update_has_nan _ _ _ _ Hk Hsel HD) in Hnan. discriminate.
Qed.

(** C1, as the code has it.  A value returned by [find_clusters] is a
    fixed point of the two steps as they are computed: the labels are
    the ones that [pairwise_distances_argmin] gives for the returned
    centers, so the label of a point is the first index whose computed
    distance is least (no computed distance is less, and every one
    before it that is a number is greater); every cluster has a point,
    and its center is equal, as a number in every component, to the
    mean that [mean(0)] computes for the points that carry its label.
    Both are float64 computations: the center need not be the exact
    arithmetic mean, nor the label the one of an exactly nearest
    center. *)
Theorem returned_is_fixed_point :
  forall (fuel : nat) (X : array) (K : nat) (seed : Z) (s s' : store)
         (centers : array) (labels : list nat),
    find_clusters fuel X K seed s = (Returned (centers, labels), s') ->
    nrows centers = K /\
    length labels = nrows X /\
    matrix (ncols X) centers /\
    all_finite centers = true /\
    pairwise_distances_argmin X centers = Ok labels /\
    (forall i x, nth_error X i = Some x ->
       exists l, nth_error labels i = Some l /\ l < K /\
         (forall j, j < K ->
            fltb (lib_distance x (nth j centers []))
                 (lib_distance x (nth l centers [])) = false) /\
         (forall j, j < l ->
            is_nan (lib_distance x (nth j centers [])) = false ->
            fltb (lib_distance x (nth l centers []))
                 (lib_distance x (nth j centers [])) = true)) /\
    (forall k, k < K ->
       select X labels k <> [] /\
       Forall2 feq (nth k centers []) (mean0 (ncols X) (select X labels k))).
Proof.
  intros fuel X K seed s s' centers labels. rewrite find_clusters_run.
  intros [= Hloop _].
  apply loop_returned_inv in Hloop as (t & _ & Hat & Hstep).
  apply centers_at_nrows in Hat as Hle.
  2:{ unfold nrows at 1. rewrite length_map, drawn_length. lia. }
  apply step_break_inv in Hstep as (_ & Hl & Heq).
  destruct (converged_pass _ _ _ _ Hl Heq Hle) as (HK & Hnan & Hall).
  destruct (step_shapes _ _ _ K Hl) as (Hc & Hu & HD & Hn).
  pose proof (labels_in_range _ _ _ Hl) as [Hlen _].
  pose proof Hl as Hl'.
  apply argmin_ok_inv in Hl' as (HX & Hcc & _ & Hlab).
  apply check_array_inv in Hcc as (_ & _ & _ & Hfc).
  assert (Hne : centers <> []) by (destruct centers; [simpl in Hn; lia | discriminate]).
  repeat split; auto.
  - intros i x Hi. exists (nearest centers x).
    destruct (nearest_spec centers x Hne) as (H1 & H2 & H3 & _).
    rewrite HK in H1, H2.
    repeat split; auto. rewrite Hlab. now apply map_nth_error.
  - now apply (no_nan_clusters_nonempty _ _ K).
  - rewrite <- (update_nth X labels K k) by assumption.
    apply Forall2_nth_rel; [exact Hall | unfold nrows in *; lia].
Qed.

(** ** Sums of rationals *)

Lemma Qsum_nonneg (l : list Q) :
  (forall a, In a l -> (0 <= a)%Q) -> (0 <= Qsum l)%Q.
Proof.
  induction l as [|a l IH]; intros H; simpl; [lra|].
  assert (0 <= a)%Q by (apply H; now left).
  assert (0 <= Qsum l)%Q by (apply IH; intros; apply H; now right).
  lra.
Qed.

Lemma Qsum_map_ext (A : Type) (f g : A -> Q) (l : list A) :
  (forall a, In a l -> (f a == g a)%Q) -> (Qsum (map f l) == Qsum (map g l))%Q.
Proof.
  induction l as [|a l IH]; intros H; simpl; [reflexivity|].
  rewrite (H a) by now left. rewrite IH; [reflexivity|].
  intros; apply H; now right.
Qed.

Lemma Qsum_map_le (A : Type) (f g : A -> Q) (l : list A) :
  (forall a, In a l -> (f a <= g a)%Q) -> (Qsum (map f l) <= Qsum (map g l))%Q.
Proof.
  induction l as [|a l IH]; intros H; simpl; [lra|].
  assert (f a <= g a)%Q by (apply H; now left).
  assert (Qsum (map f l) <= Qsum (map g l))%Q by (apply IH; intros; apply H; now right).
  lra.
Qed.

Lemma Qsum_map_plus (A : Type) (f g : A -> Q) (l : list A) :
  (Qsum (map (fun a => f a + g a) l) == Qsum (map f l) + Qsum (map g l))%Q.
Proof.
  induction l as [|a l IH]; simpl; [lra | rewrite IH; lra].
Qed.

Lemma Qsum_map_scale (A : Type) (c : Q) (f : A -> Q) (l : list A) :
  (Qsum (map (fun a => c * f a) l) == c * Qsum (map f l))%Q.
Proof.
  induction l as [|a l IH]; simpl; [lra | rewrite IH; ring].
Qed.

Lemma Qsum_swap (A B : Type) (f : A -> B -> Q) (la : list A) (lb : list B) :
  (Qsum (map (fun a => Qsum (map (f a) lb)) la)
   == Qsum (map (fun b => Qsum (map (fun a => f a b) la)) lb))%Q.
Proof.
  induction la as [|a la IH]; simpl.
  - induction lb as [|b lb IHb]; simpl; [reflexivity | rewrite <- IHb; lra].
  - rewrite IH. rewrite <- Qsum_map_plus. reflexivity.
Qed.

Lemma Qsum_indicator (f : nat -> Q) (j s n : nat) :
  s <= j < s + n ->
  (Qsum (map (fun k => if j =? k then f k else 0) (seq s n)) == f j)%Q.
Proof.
  revert s. induction n as [|n IH]; intros s Hj; [lia|]. simpl.
  destruct (j =? s) eqn:E.
  - apply Nat.eqb_eq in E. subst s.
    rewrite (Qsum_map_ext _ _ (fun _ => 0%Q)).
    + clear. generalize (seq (S j) n). intros l. induction l; simpl; lra.
    + intros k Hk. apply in_seq in Hk.
      destruct (j =? k) eqn:E; [apply Nat.eqb_eq in E; lia | reflexivity].
  - apply Nat.eqb_neq in E. rewrite IH by lia. lra.
Qed.

Lemma Qsum_map_const (A : Type) (c : Q) (l : list A) :
  (Qsum (map (fun _ => c) l) == inject_Z (Z.of_nat (length l)) * c)%Q.
Proof.
  induction l as [|a l IH].
  - simpl. ring.
  - cbn [map length Qsum fold_right]. fold (Qsum (map (fun _ : A => c) l)).
    rewrite IH, Nat2Z.inj_succ, <- Z.add_1_r, inject_Z_plus. ring.
Qed.

(** The sum of squared deviations from [c] is the one from the mean plus
    [n] times the squared distance from the mean to [c]. *)
Lemma deviations_from_mean (col : list Q) (m c : Q) :
  col <> [] -> (m == mean_of col)%Q ->
  (Qsum (map (fun a => (a - c) * (a - c)) col)
   == Qsum (map (fun a => (a - m) * (a - m)) col)
      + inject_Z (Z.of_nat (length col)) * ((m - c) * (m - c)))%Q.
Proof.
  intros Hne Hm.
  assert (Hn : ~ (inject_Z (Z.of_nat (length col)) == 0)%Q).
  { destruct col; [congruence|]. simpl length.
    intros H. apply (Qeq_bool_neq (inject_Z (Z.of_nat (S (length col)))) 0); [reflexivity | exact H]. }
  assert (Hs : (Qsum col == inject_Z (Z.of_nat (length col)) * m)%Q).
  { rewrite Hm. unfold mean_of. field. exact Hn. }
  assert (Hexp : forall t,
    (Qsum (map (fun a => (a - t) * (a - t)) col)
     == Qsum (map (fun a => a * a) col) - 2 * t * Qsum col
        + inject_Z (Z.of_nat (length col)) * (t * t))%Q).
  { intros t. clear. induction col as [|a col IH].
    - simpl. ring.
    - cbn [map length Qsum fold_right].
      fold (Qsum (map (fun a => ((a - t) * (a - t))%Q) col)).
      fold (Qsum (map (fun a => (a * a)%Q) col)). fold (Qsum col).
      rewrite IH, Nat2Z.inj_succ, <- Z.add_1_r, inject_Z_plus. ring. }
  rewrite (Hexp c), (Hexp m), Hs. ring.
Qed.

(** ** The objective *)

Lemma dist2_coords (D : nat) (x c : vector) :
  length x = D -> length c = D ->
  (dist2 x c ==
   Qsum (map (fun d => (to_Q (nth d x NaN) - to_Q (nth d c NaN))
                       * (to_Q (nth d x NaN) - to_Q (nth d c NaN)))
             (seq 0 D)))%Q.
Proof.
  revert x c. induction D as [|D IH]; intros [|a x] [|b c]; simpl; try discriminate;
    try reflexivity.
  intros [= Hx] [= Hc]. unfold dist2 in *. cbn [rowQ map sqdist].
  fold (rowQ x). fold (rowQ c). rewrite (IH x c Hx Hc).
  rewrite <- seq_shift, map_map. reflexivity.
Qed.

Lemma square_nonneg (t : Q) : (0 <= t * t)%Q.
Proof. nra. Qed.

Lemma dist2_nonneg (x c : vector) : (0 <= dist2 x c)%Q.
Proof.
  unfold dist2. generalize (rowQ x) (rowQ c). intros u.
  induction u as [|a u IH]; intros [|b v]; simpl; try lra.
  specialize (IH v). pose proof (square_nonneg (a - b)). lra.
Qed.

(** The cost of a cluster, column by column. *)
Lemma cluster_cost (D : nat) (R : array) (c : vector) :
  matrix D R -> length c = D ->
  (Qsum (map (fun x => dist2 x c) R) ==
   Qsum (map (fun d =>
                Qsum (map (fun a => (a - to_Q (nth d c NaN)) * (a - to_Q (nth d c NaN)))
                          (column d R)))
             (seq 0 D)))%Q.
Proof.
  intros HR Hc.
  rewrite (Qsum_map_ext _ _
    (fun x => Qsum (map (fun d => (to_Q (nth d x NaN) - to_Q (nth d c NaN))
                                  * (to_Q (nth d x NaN) - to_Q (nth d c NaN)))%Q
                        (seq 0 D)))).
  - rewrite Qsum_swap. apply Qsum_map_ext. intros d _.
    unfold column. rewrite map_map. reflexivity.
  - intros x Hx. apply dist2_coords; [|assumption].
    unfold matrix in HR. rewrite Forall_forall in HR. auto.
Qed.

(** The cost of a cluster against any center is its cost against its
    mean plus the size of the cluster times the squared distance between
    the mean and that center. *)
Lemma cluster_mean_identity (D : nat) (R : array) (m c : vector) :
  matrix D R -> R <> [] -> length m = D -> length c = D ->
  (forall d, d < D -> (to_Q (nth d m NaN) == mean_of (column d R))%Q) ->
  (Qsum (map (fun x => dist2 x c) R) ==
   Qsum (map (fun x => dist2 x m) R)
   + inject_Z (Z.of_nat (length R)) * dist2 m c)%Q.
Proof.
  intros HR Hne Hm Hc Hmean.
  rewrite (cluster_cost D R c HR Hc), (cluster_cost D R m HR Hm).
  rewrite (dist2_coords D m c Hm Hc).
  rewrite <- Qsum_map_scale, <- Qsum_map_plus.
  apply Qsum_map_ext. intros d Hd. apply in_seq in Hd.
  rewrite (deviations_from_mean (column d R) (to_Q (nth d m NaN)) (to_Q (nth d c NaN))).
  - unfold column. rewrite length_map. reflexivity.
  - unfold column. destruct R; [congruence | discriminate].
  - apply Hmean. lia.
Qed.

Lemma select_cons (x : vector) (X : array) (j : nat) (l : list nat) (k : nat) :
  select (x :: X) (j :: l) k = if j =? k then x :: select X l k else select X l k.
Proof.
  unfold select. simpl. now destruct (j =? k).
Qed.

(** The objective, cluster by cluster. *)
Lemma wcss_by_cluster (X c : array) (l : list nat) (K : nat) :
  Forall (fun j => j < K) l ->
  (wcss X c l ==
   Qsum (map (fun k => Qsum (map (fun x => dist2 x (nth k c [])) (select X l k)))
             (seq 0 K)))%Q.
Proof.
  intros Hl. revert X. induction Hl as [|j l Hj _ IH]; intros X.
  - unfold wcss. rewrite combine_nil.
    rewrite (Qsum_map_ext _ _ (fun _ => 0%Q) (seq 0 K)).
    + rewrite Qsum_map_const. simpl. ring.
    + intros k _. unfold select. now rewrite combine_nil.
  - destruct X as [|x X].
    + unfold wcss.
      rewrite (Qsum_map_ext _ _ (fun _ => 0%Q) (seq 0 K)).
      * rewrite Qsum_map_const. simpl. ring.
      * intros k _. reflexivity.
    + unfold wcss in *. cbn [combine map Qsum fold_right fst snd].
      fold (Qsum (map (fun p => dist2 (fst p) (nth (snd p) c [])) (combine X l))).
      rewrite (IH X).
      rewrite (Qsum_map_ext _
        (fun k => Qsum (map (fun x0 => dist2 x0 (nth k c [])) (select (x :: X) (j :: l) k)))
        (fun k => ((if j =? k then dist2 x (nth k c []) else 0)
                   + Qsum (map (fun x0 => dist2 x0 (nth k c [])) (select X l k)))%Q)).
      * rewrite Qsum_map_plus.
        rewrite (Qsum_indicator (fun k => dist2 x (nth k c [])) j 0 K) by lia.
        reflexivity.
      * intros k _. rewrite select_cons. destruct (j =? k); simpl; lra.
Qed.

(** The update step, when the new centers are the exact means: the
    objective of the same assignment does not go up. *)
Lemma means_step (X c c' : array) (l : list nat) (K : nat) :
  matrix (ncols X) X -> matrix (ncols X) c -> matrix (ncols X) c' ->
  nrows c = K -> nrows c' = K ->
  Forall (fun j => j < K) l ->
  (forall k, k < K -> select X l k <> []) ->
  exact_means X l c' ->
  (wcss X c' l <= wcss X c l)%Q.
Proof.
  intros HX Hc Hc' HK HK' Hl Hne Hex.
  rewrite (wcss_by_cluster X c l K Hl), (wcss_by_cluster X c' l K Hl).
  apply Qsum_map_le. intros k Hk. apply in_seq in Hk.
  assert (Hrow : forall a : array, matrix (ncols X) a -> nrows a = K ->
                                   length (nth k a []) = ncols X).
  { intros a Ha Hn. unfold matrix in Ha. rewrite Forall_forall in Ha.
    apply Ha. apply nth_In. unfold nrows in Hn. lia. }
  rewrite (cluster_mean_identity (ncols X) (select X l k) (nth k c' []) (nth k c [])).
  - assert (H0 : (0 <= inject_Z (Z.of_nat (length (select X l k)))
                       * dist2 (nth k c' []) (nth k c []))%Q).
    { apply Qmult_le_0_compat; [|apply dist2_nonneg].
      change 0%Q with (inject_Z 0). rewrite <- Zle_Qle. lia. }
    lra.
  - now apply select_matrix.
  - apply Hne. lia.
  - now apply Hrow.
  - now apply Hrow.
  - intros d Hd. apply Hex; [rewrite HK'; lia | exact Hd].
Qed.

(** The assignment step, when every label is the one of a nearest
    center: no assignment to the same centers costs less. *)
Lemma assign_step (X c : array) (l l' : list nat) :
  nearest_labels X c l' -> length l = length X ->
  Forall (fun j => j < nrows c) l ->
  (wcss X c l' <= wcss X c l)%Q.
Proof.
  unfold nearest_labels. intros H. revert l.
  induction H as [|x k X l' Hk _ IH]; intros l Hlen Hl.
  - unfold wcss. cbn. apply Qle_refl.
  - destruct l as [|j l]; [discriminate|]. injection Hlen as Hlen.
    inversion Hl as [|? ? Hj Hl']; subst.
    specialize (IH l Hlen Hl'). specialize (Hk j Hj).
    unfold wcss in *. cbn [combine map Qsum fold_right fst snd].
    unfold Qsum in *. lra.
Qed.

(** One pass followed by an assignment, both without rounding: the
    objective does not go up. *)
Lemma pass_objective (X c : array) (l l' : list nat) (K : nat) :
  pairwise_distances_argmin X c = Ok l -> nrows c <= K ->
  pairwise_distances_argmin X (update X l K) = Ok l' ->
  exact_means X l (update X l K) ->
  nearest_labels X (update X l K) l' ->
  (wcss X (update X l K) l' <= wcss X c l)%Q.
Proof.
  intros Hl Hle Hl' Hex Hnear.
  destruct (step_shapes _ _ _ K Hl) as (Hc & Hu & HD & Hn).
  pose proof (labels_in_range _ _ _ Hl) as [Hlen Hrange].
  apply argmin_ok_inv in Hl' as (HX & Hcu & _ & _).
  assert (Hnan : has_nan (update X l K) = false).
  { apply check_array_inv in Hcu as (_ & _ & _ & Hf).
    destruct (has_nan (update X l K)) eqn:E; [|reflexivity].
    apply has_nan_not_finite in E. congruence. }
  assert (HK : nrows c = K).
  { destruct (Nat.eq_dec (nrows c) K) as [|Hne]; [assumption|].
    rewrite (update_short_has_nan _ _ _ _ Hl) in Hnan; [discriminate | lia]. }
  apply check_array_inv in HX as (HmX & _ & _ & _).
  apply Qle_trans with (wcss X (update X l K) l).
  - apply assign_step; auto. now rewrite update_nrows, <- HK.
  - apply (means_step X c (update X l K) l K); auto.
    + apply update_nrows.
    + now rewrite <- HK.
    + intros k Hk. now apply (no_nan_clusters_nonempty X l K k).
Qed.

Lemma centers_at_add (a b : nat) (X : array) (K : nat) (c0 : array) :
  centers_at (a + b) X K c0 =
  match centers_at a X K c0 with
  | Some c => centers_at b X K c
  | None => None
  end.
Proof.
  revert c0. induction a as [|a IH]; intros c0; simpl; [reflexivity|].
  destruct (step X K c0); auto.
Qed.

Lemma centers_at_succ (t : nat) (X : array) (K : nat) (c0 c' : array) :
  centers_at (S t) X K c0 = Some c' ->
  exists c, centers_at t X K c0 = Some c /\ step X K c = Continue c'.
Proof.
  replace (S t) with (t + 1) by lia. rewrite centers_at_add.
  destruct (centers_at t X K c0) as [c|]; [|discriminate].
  simpl. destruct (step X K c) eqn:E; try discriminate.
  intros [= <-]. eauto.
Qed.

(** In a run that returns, every value taken by [centers] is accepted by
    the assignment step. *)
Lemma returned_run_assigns (fuel t : nat) (X : array) (K : nat) (c0 c : array)
      (r : array * list nat) :
  loop fuel X K c0 = Returned r -> centers_at t X K c0 = Some c ->
  exists l, pairwise_distances_argmin X c = Ok l.
Proof.
  intros Hr Hat.
  assert (Hn : loop fuel X K c0 <> OutOfFuel) by congruence.
  pose proof (loop_more_fuel fuel t X K c0 Hn) as Hm.
  replace (fuel + t) with (t + fuel) in Hm by lia.
  rewrite (loop_centers_at t fuel X K c0 c Hat), Hr in Hm.
  destruct fuel as [|fuel]; [discriminate|]. simpl in Hm.
  unfold step in Hm.
  destruct (pairwise_distances_argmin X c) as [l|e]; [eauto | discriminate].
Qed.

Lemma loop_objective (fuel : nat) (X : array) (K : nat) (c0 cT : array) (lT : list nat) :
  nrows c0 <= K -> loop fuel X K c0 = Returned (cT, lT) ->
  (forall t c, centers_at t X K c0 = Some c -> exact_pass X K c) ->
  exists l0, pairwise_distances_argmin X c0 = Ok l0 /\
             (wcss X cT lT <= wcss X c0 l0)%Q.
Proof.
  revert c0. induction fuel as [|fuel IH]; intros c0 Hle; cbn [loop]; [discriminate|].
  destruct (step X K c0) as [c1 l1|c1|e] eqn:E; try discriminate.
  - intros [= -> ->] _. apply step_break_inv in E as (-> & Hl & _).
    exists lT. split; [assumption | apply Qle_refl].
  - intros H Hex. pose proof E as E'.
    apply step_continue_inv in E' as (l0 & Hl0 & -> & _).
    destruct (IH _ (Nat.eq_le_incl _ _ (update_nrows X l0 K)) H) as (l1 & Hl1 & Hobj).
    { intros t c Hat. apply (Hex (S t)). cbn [centers_at]. now rewrite E. }
    exists l0. split; [assumption|].
    eapply Qle_trans; [exact Hobj|].
    apply (pass_objective X c0 l0 l1 K Hl0 Hle Hl1).
    + now apply (Hex 0 c0 eq_refl).
    + apply (Hex 1 (update X l0 K)); [|exact Hl1]. cbn [centers_at]. now rewrite E.
Qed.

(** ** The objective along a run *)

(** C2, as the code has it.  [find_clusters] never evaluates the
    objective, and with the rounding of float64 the within-cluster sum
    of squared distances can go up.  It does not go up across the passes
    that rounding has not changed: when in every pass of a run that
    returns the labels computed are those of nearest centers and the
    means computed are the exact means, the objective of the returned
    value is at most the one of the initial centers with the first
    assignment, and from any pass to the next it does not go up. *)
Theorem objective_never_increases :
  forall (fuel : nat) (X : array) (K : nat) (seed : Z) (s s' : store)
         (c0 centers : array) (labels : list nat),
    find_clusters fuel X K seed s = (Returned (centers, labels), s') ->
    init_centers X K seed s = (Returned c0, s') ->
    (forall t c, centers_at t X K c0 = Some c -> exact_pass X K c) ->
    exists l0,
      pairwise_distances_argmin X c0 = Ok l0 /\
      (wcss X centers labels <= wcss X c0 l0)%Q /\
      (forall t c c',
          centers_at t X K c0 = Some c ->
          centers_at (S t) X K c0 = Some c' ->
          exists l l',
            pairwise_distances_argmin X c = Ok l /\
            pairwise_distances_argmin X c' = Ok l' /\
            (wcss X c' l' <= wcss X c l)%Q).
Proof.
  intros fuel X K seed s s' c0 centers labels H Hinit Hex.
  pose proof (init_centers_nrows _ _ _ _ _ _ Hinit) as Hrows.
  apply init_centers_inv in Hinit as [Hc0 _].
  rewrite find_clusters_run, <- Hc0 in H. injection H as Hloop _.
  assert (Hle : nrows c0 <= K) by lia.
  destruct (loop_objective fuel X K c0 centers labels Hle Hloop Hex) as (l0 & Hl0 & Hobj).
  exists l0. repeat split; auto.
  intros t c c' Hat Hat'.
  apply centers_at_succ in Hat' as Hsucc. destruct Hsucc as (c1 & Hc1 & Hstep).
  assert (c1 = c) by congruence. subst c1.
  apply step_continue_inv in Hstep as (l & Hl & -> & _).
  destruct (returned_run_assigns fuel (S t) X K c0 _ _ Hloop Hat') as (l' & Hl').
  exists l, l'. repeat split; auto.
  pose proof (centers_at_nrows t X K c0 c Hat Hle) as Hlec.
  apply (pass_objective X c l l' K Hl Hlec Hl').
  - now apply (Hex t c Hat).
  - now apply (Hex (S t) (update X l K) Hat').
Qed.

(** ** A single cluster *)

Lemma labels_single (c : vector) (X : array) :
  map (nearest [c]) X = repeat 0 (length X).
Proof.
  induction X as [|x X IH]; cbn [map length repeat]; [reflexivity|].
  now rewrite IH.
Qed.

Lemma select_all (X : array) : select X (repeat 0 (length X)) 0 = X.
Proof.
  unfold select. induction X as [|x X IH]; simpl; [reflexivity | now rewrite IH].
Qed.

Lemma update_single (X : array) :
  update X (repeat 0 (length X)) 1 = [mean0 (ncols X) X].
Proof.
  unfold update. simpl. now rewrite select_all.
Qed.

Lemma feq_refl_finite (r : vector) :
  forallb is_finite r = true -> Forall2 feq r r.
Proof.
  induction r as [|a r IH]; cbn [forallb]; intros H; constructor.
  - apply andb_true_iff in H as [H _]. now apply feq_refl, finite_not_nan.
  - apply IH. now apply andb_true_iff in H.
Qed.

Lemma centers_equal_single (D : nat) (a b : vector) :
  length a = D -> length b = D ->
  centers_equal [a] [b] = Ok (row_eqb D a b).
Proof.
  intros Ha Hb. unfold centers_equal, shapes_ok, all_equal, compatible. simpl.
  rewrite Ha, Hb, Nat.eqb_refl, bshape_same. simpl.
  now rewrite andb_true_r.
Qed.

(** C8, as the code has it.  With one cluster and a valid array every
    label is 0 and every pass computes the same center: the mean of all
    the rows as [mean(0)] computes it in float64, which need not be the
    exact mean and is not finite when the sum overflows.  The first pass
    compares the point that was drawn with this mean, so the loop ends
    in the first pass only when the two are equal as numbers.  Otherwise
    the second pass ends the run: it returns the computed mean when this
    is finite, and raises the library's [ValueError] when it is not. *)
Theorem single_cluster :
  forall (X : array) (seed : Z) (s : store),
    check_array X = true ->
    exists (c0 : vector) (s' : store),
      init_centers X 1 seed s = (Returned [c0], s') /\
      (row_eqb (ncols X) c0 (mean0 (ncols X) X) = true ->
       find_clusters 1 X 1 seed s = (Returned ([c0], repeat 0 (nrows X)), s')) /\
      (row_eqb (ncols X) c0 (mean0 (ncols X) X) = false ->
       fst (find_clusters 1 X 1 seed s) = OutOfFuel /\
       (forallb is_finite (mean0 (ncols X) X) = true ->
        find_clusters 2 X 1 seed s
        = (Returned ([mean0 (ncols X) X], repeat 0 (nrows X)), s')) /\
       (forallb is_finite (mean0 (ncols X) X) = false ->
        find_clusters 2 X 1 seed s = (Raised ValueError, s'))) /\
      (forall fuel c l s2,
          find_clusters fuel X 1 seed s = (Returned (c, l), s2) ->
          exists r, c = [r] /\ Forall2 feq r (mean0 (ncols X) X) /\
                    l = repeat 0 (nrows X)).
Proof.
  intros X seed s HX.
  pose proof (init_centers_run X 1 seed s) as Hinit.
  pose proof (drawn_length (RandomState seed) (nrows X) 1) as Hlen.
  pose proof (drawn_in_range (RandomState seed) (nrows X) 1) as Hrange.
  pose proof (check_array_inv X HX) as (HmX & HnX & HD & HfX).
  destruct (firstn 1 (fst (rng_permutation (RandomState seed) (nrows X))))
    as [|j [|j' idx]] eqn:Eidx; cbn [length] in Hlen; try lia.
  cbn [map] in Hinit.
  set (c0 := nth j X []) in *.
  set (m := mean0 (ncols X) X).
  set (s' := s ++ [snd (rng_permutation (RandomState seed) (nrows X))]) in *.
  destruct (check_array_take X [j] HX) as [Hc0 Hcols]; [discriminate | assumption |].
  cbn [map ncols] in Hc0, Hcols. fold c0 in Hc0, Hcols.
  assert (Hm : length m = ncols X) by apply mean0_length.
  assert (Hl0 : pairwise_distances_argmin X [c0] = Ok (repeat 0 (nrows X))).
  { unfold pairwise_distances_argmin. rewrite HX, Hc0. cbn [ncols].
    rewrite Hcols, Nat.eqb_refl. cbn [andb]. now rewrite labels_single. }
  assert (Hstep0 : step X 1 [c0] =
                   if row_eqb (ncols X) c0 m then Break [c0] (repeat 0 (nrows X))
                   else Continue [m]).
  { unfold step. rewrite Hl0. unfold nrows. rewrite update_single. fold m.
    now rewrite (centers_equal_single (ncols X)) by auto. }
  assert (Hstep1 : forallb is_finite m = true ->
                   step X 1 [m] = Break [m] (repeat 0 (nrows X))).
  { intros Hmf.
    assert (Hcm : check_array [m] = true).
    { apply (check_array_intro (ncols X)); auto.
      - constructor; [assumption | constructor].
      - cbn. now rewrite Hmf. }
    unfold step, pairwise_distances_argmin. rewrite HX, Hcm. cbn [ncols].
    rewrite Hm, Nat.eqb_refl. cbn [andb]. rewrite labels_single.
    unfold nrows. rewrite update_single. fold m.
    rewrite (centers_equal_single (ncols X)) by auto.
    replace (row_eqb (ncols X) m m) with true; [reflexivity|].
    symmetry. apply (row_eqb_feq (ncols X)); auto. now apply feq_refl_finite. }
  assert (Hstep1' : forallb is_finite m = false -> step X 1 [m] = Fail ValueError).
  { intros Hmf. unfold step. rewrite argmin_rejects; [reflexivity|].
    right. apply not_finite_rejected. cbn. now rewrite Hmf. }
  assert (Hrun : forall fuel, find_clusters fuel X 1 seed s = (loop fuel X 1 [c0], s')).
  { intros fuel. rewrite find_clusters_run, Eidx. reflexivity. }
  exists c0, s'. split; [exact Hinit|].
  split; [|split].
  - intros E. rewrite Hrun. cbn [loop]. now rewrite Hstep0, E.
  - intros E. split; [|split].
    + rewrite Hrun. cbn [loop fst]. now rewrite Hstep0, E.
    + intros Hmf. rewrite Hrun. cbn [loop]. now rewrite Hstep0, E, (Hstep1 Hmf).
    + intros Hmf. rewrite Hrun. cbn [loop]. now rewrite Hstep0, E, (Hstep1' Hmf).
  - intros fuel c l s2. rewrite Hrun. intros [= Hloop _].
    destruct (row_eqb (ncols X) c0 m) eqn:E.
    + assert (H1 : loop 1 X 1 [c0] = Returned ([c0], repeat 0 (nrows X))).
      { cbn [loop]. now rewrite Hstep0. }
      assert (Heq : loop fuel X 1 [c0] = loop 1 X 1 [c0])
        by (apply loop_fuel_agree; congruence).
      rewrite Hloop, H1 in Heq. injection Heq as -> ->.
      exists c0. repeat split. now apply (row_eqb_feq (ncols X)).
    + destruct (forallb is_finite m) eqn:Hmf.
      * assert (H2 : loop 2 X 1 [c0] = Returned ([m], repeat 0 (nrows X))).
        { cbn [loop]. now rewrite Hstep0, (Hstep1 eq_refl). }
        assert (Heq : loop fuel X 1 [c0] = loop 2 X 1 [c0])
          by (apply loop_fuel_agree; congruence).
        rewrite Hloop, H2 in Heq. injection Heq as -> ->.
        exists m. repeat split. now apply feq_refl_finite.
      * exfalso.
        assert (H2 : loop 2 X 1 [c0] = Raised ValueError).
        { cbn [loop]. now rewrite Hstep0, (Hstep1' eq_refl). }
        eapply loop_unique; eauto.
Qed.

(** ** No bound on the number of passes *)

(** C4, as the code has it.  No maximum number of passes is imposed and
    no status is reported: a value is returned only by the pass in which
    the exact-equality test succeeds, so what is returned is always
    converged; a run that has not come to an end with some number of
    passes has not come to an end with fewer; and as long as the test
    fails the loop goes on, whatever the number of passes: after [n]
    passes that ended in [centers = new_centers] the run is still going
    on. *)
Theorem terminates_without_cap :
  forall (X : array) (K : nat) (seed : Z) (s : store),
    (forall fuel c l s',
        find_clusters fuel X K seed s = (Returned (c, l), s') ->
        pairwise_distances_argmin X c = Ok l /\
        centers_equal c (update X l K) = Ok true) /\
    (forall fuel fuel',
        fuel' <= fuel ->
        fst (find_clusters fuel X K seed s) = OutOfFuel ->
        fst (find_clusters fuel' X K seed s) = OutOfFuel) /\
    (forall n c0 s' c,
        init_centers X K seed s = (Returned c0, s') ->
        centers_at n X K c0 = Some c ->
        fst (find_clusters n X K seed s) = OutOfFuel).
Proof.
  intros X K seed s.
  split; [|split].
  - intros fuel c l s' H.
    rewrite find_clusters_run in H. injection H as Hloop _.
    apply loop_returned_inv in Hloop as (t & _ & _ & Hstep).
    apply step_break_inv in Hstep as (_ & Hl & Heq). auto.
  - intros fuel fuel' Hle. rewrite !find_clusters_run. cbn [fst].
    set (c0 := map (fun j => nth j X [])
                 (firstn K (fst (rng_permutation (RandomState seed) (nrows X))))).
    intros H.
    destruct (loop fuel' X K c0) eqn:E; try reflexivity; exfalso;
      assert (Hne : loop fuel' X K c0 <> OutOfFuel) by congruence;
      pose proof (loop_more_fuel fuel' (fuel - fuel') X K c0 Hne) as Hm;
      replace (fuel' + (fuel - fuel')) with fuel in Hm by lia; congruence.
  - intros n c0 s' c Hinit Hat.
    apply init_centers_inv in Hinit as [Hc0 _].
    rewrite find_clusters_run, <- Hc0. cbn [fst].
    pose proof (loop_centers_at n 0 X K c0 c Hat) as H.
    rewrite Nat.add_0_r in H. now rewrite H.
Qed.

(** * Further properties of [find_clusters] *)

(** ** No point, or no cluster *)

Lemma argmin_step_nil (X : array) (K : nat) : step X K [] = Fail ValueError.
Proof.
  unfold step. rewrite argmin_rejects; [reflexivity | now right].
Qed.

(** X1. Called on an array without rows, or for zero clusters,
    [find_clusters] selects no center and the assignment step of the
    first pass raises the library's [ValueError]. *)
Theorem no_points_or_no_clusters :
  forall (X : array) (K : nat) (seed : Z) (s : store) (n : nat),
    nrows X = 0 \/ K = 0 ->
    fst (init_centers X K seed s) = Returned [] /\
    fst (find_clusters (S n) X K seed s) = Raised ValueError.
Proof.
  intros X K seed s n H.
  pose proof (init_centers_run X K seed s) as Hinit.
  pose proof (init_centers_nrows _ _ _ _ _ _ Hinit) as Hrows.
  rewrite find_clusters_run, init_centers_run.
  destruct (map (fun j => nth j X [])
              (firstn K (fst (rng_permutation (RandomState seed) (nrows X)))))
    as [|r c0]; [|simpl in Hrows; lia].
  split; [reflexivity|]. cbn [fst loop].
  rewrite argmin_step_nil. reflexivity.
Qed.

(** ** Initial centers that coincide *)

(** A center that equals, as numbers, a center of lower index is never
    the nearest one. *)
Lemma later_twin_never_nearest (c : array) (x : vector) (i j : nat) :
  c <> [] -> i < j -> Forall2 feq (nth i c []) (nth j c []) ->
  nearest c x <> j.
Proof.
  intros Hne Hij Hfeq Hj.
  destruct (nearest_spec c x Hne) as (_ & _ & Hstrict & Hnum).
  rewrite Hj in Hstrict, Hnum.
  assert (Hnj : is_nan (lib_distance x (nth j c [])) = false) by (apply Hnum; lia).
  pose proof (lib_distance_values x Hfeq) as Hsame.
  unfold same_number in Hsame. apply orb_true_iff in Hsame as [Hsame|Hsame].
  - pose proof (feq_not_nan_l _ _ Hsame) as Hni.
    specialize (Hstrict i Hij Hni).
    apply fltb_spec in Hstrict as (_ & _ & Hlt).
    apply feqb_spec in Hsame as (_ & _ & Heq). keys.
  - apply andb_true_iff in Hsame as [_ Hsame]. congruence.
Qed.

(** X2. When two of the rows drawn as initial centers are equal as
    numbers, the one of higher index never gets a point: its cluster is
    empty in the first pass, and the call ends with the library's
    [ValueError] within two passes. *)
Theorem twin_centers_raise :
  forall (X : array) (K : nat) (seed : Z) (s s' : store) (c0 : array)
         (i j n : nat),
    init_centers X K seed s = (Returned c0, s') ->
    i < j -> j < K ->
    Forall2 feq (nth i c0 []) (nth j c0 []) ->
    (forall l0, pairwise_distances_argmin X c0 = Ok l0 -> select X l0 j = []) /\
    fst (find_clusters (S (S n)) X K seed s) = Raised ValueError.
Proof.
  intros X K seed s s' c0 i j n Hinit Hij HjK Hfeq.
  assert (Hsel : forall l0, pairwise_distances_argmin X c0 = Ok l0 ->
                            select X l0 j = []).
  { intros l0 Hl0. apply select_empty.
    apply argmin_ok_inv in Hl0 as (_ & Hc & _ & ->).
    apply check_array_inv in Hc as (_ & Hn & _).
    apply Forall_forall. intros k Hk. apply in_map_iff in Hk as (x & <- & _).
    apply (later_twin_never_nearest c0 x i j); auto.
    destruct c0; [simpl in Hn; lia | discriminate]. }
  split; [exact Hsel|].
  apply init_centers_inv in Hinit as [Hc0 _].
  rewrite find_clusters_run, <- Hc0. cbn [fst].
  destruct (pairwise_distances_argmin X c0) as [l0|e] eqn:Hl0.
  - destruct (step_shapes _ _ _ K Hl0) as (_ & _ & HD & _).
    apply (nan_pass_raises X c0 l0 K n Hl0).
    apply (update_has_nan X l0 K j HjK (Hsel l0 eq_refl) HD).
  - cbn [loop]. unfold step. rewrite Hl0.
    now rewrite (argmin_raise_inv _ _ _ Hl0).
Qed.


End Kmeans.

(** * Concrete runs *)

Lemma rot_permutation_perm :
  forall (g : Z) (n : nat), Permutation (fst (rot_permutation g n)) (seq 0 n).
Proof.
  intros g n. simpl. rewrite Permutation_app_comm. now rewrite firstn_skipn.
Qed.

(** Two floats that compare equal are the same float, or two zeros. *)
Lemma feq_cases (b b' : float) :
  feq b b' ->
  b = b' \/ exists s s', Prim2SF b = S754_zero s /\ Prim2SF b' = S754_zero s'.
Proof.
  intros H. apply feqb_spec in H as (Hb & Hb' & Hk).
  rewrite is_nan_spec in Hb, Hb'. unfold fkey in Hk.
  destruct (Prim2SF b) as [s|s| |s m e] eqn:Eb;
    destruct (Prim2SF b') as [s'|s'| |s' m' e'] eqn:Eb'; try discriminate;
    cbn [key] in Hk.
  - right. now exists s, s'.
  - destruct s'; discriminate.
  - destruct s'; discriminate.
  - destruct s; discriminate.
  - left. apply Prim2SF_inj. rewrite Eb, Eb'. destruct s, s'; try discriminate; reflexivity.
  - destruct s, s'; discriminate.
  - destruct s; discriminate.
  - destruct s, s'; discriminate.
  - left. apply Prim2SF_inj. rewrite Eb, Eb'.
    destruct s, s'; try discriminate; injection Hk as He Hm;
      (assert (e = e') by lia); (assert (m = m') by lia); now subst.
Qed.

Lemma square_diff_feq (a b b' : float) :
  feq b b' -> fmul (fsub a b) (fsub a b) = fmul (fsub a b') (fsub a b').
Proof.
  intros H. destruct (feq_cases b b' H) as [->|(s & s' & Eb & Eb')]; [reflexivity|].
  apply Prim2SF_inj. unfold fmul, fsub. rewrite !mul_spec, !sub_spec, Eb, Eb'.
  destruct (Prim2SF a) as [sa|sa| |sa ma ea]; try reflexivity.
  destruct sa, s, s'; reflexivity.
Qed.

(** The sum of squares takes the same value at two centers that compare
    equal. *)
Lemma sum_of_squares_values (x c c' : vector) :
  Forall2 feq c c' -> same_number (sum_of_squares x c) (sum_of_squares x c') = true.
Proof.
  intros H.
  assert (E : sum_of_squares x c = sum_of_squares x c').
  { unfold sum_of_squares. generalize 0%float as acc. revert x.
    induction H as [|b b' c c' Hb _ IH]; intros x acc.
    - reflexivity.
    - destruct x as [|a x]; [reflexivity|]. cbn [zip_with fold_left].
      rewrite (square_diff_feq a b b' Hb). apply IH. }
  rewrite <- E. unfold same_number.
  destruct (is_nan (sum_of_squares x c)) eqn:En.
  - apply orb_true_r.
  - change (feqb ?u ?v = true) with (feq u v). rewrite orb_false_r.
    now apply feq_refl.
Qed.

(** Two equal points and two clusters: the second cluster is empty after
    the first assignment. *)
Lemma empty_cluster_never_returns_witness :
  init_centers rot_seed rot_permutation (points1 [1; 1]%Z) 2 0%Z []
    = (Returned (points1 [1; 1]%Z), [1%Z]) /\
  centers_at sum_of_squares sum_in_order false 0 (points1 [1; 1]%Z) 2 (points1 [1; 1]%Z)
    = Some (points1 [1; 1]%Z) /\
  pairwise_distances_argmin sum_of_squares (points1 [1; 1]%Z) (points1 [1; 1]%Z)
    = Ok [0; 0] /\
  1 < 2 /\
  select (points1 [1; 1]%Z) [0; 0] 1 = [] /\
  fst (find_clusters sum_of_squares sum_in_order false rot_seed rot_permutation (0 + 2)
         (points1 [1; 1]%Z) 2 0%Z [])
    = Raised ValueError.
Proof.
  assert (h1 : init_centers rot_seed rot_permutation (points1 [1; 1]%Z) 2 0%Z []
               = (Returned (points1 [1; 1]%Z), [1%Z])) by reflexivity.
  assert (h2 : centers_at sum_of_squares sum_in_order false 0 (points1 [1; 1]%Z) 2
                 (points1 [1; 1]%Z)
               = Some (points1 [1; 1]%Z)) by reflexivity.
  assert (h3 : pairwise_distances_argmin sum_of_squares (points1 [1; 1]%Z) (points1 [1; 1]%Z)
               = Ok [0; 0]) by reflexivity.
  assert (h4 : 1 < 2) by lia.
  assert (h5 : select (points1 [1; 1]%Z) [0; 0] 1 = []) by reflexivity.
  repeat (split; [assumption|]).
  exact (proj2 (proj2 (proj2 (proj2 (proj2
    (empty_cluster_never_returns sum_of_squares sum_in_order false Z rot_seed rot_permutation
       rot_permutation_perm
       (points1 [1; 1]%Z) 2 0%Z [] [1%Z] (points1 [1; 1]%Z) (points1 [1; 1]%Z)
       0 [0; 0] 1 h1 h2 h3 h4 h5)))))).
Defined.

(** C3 as stated fails on two equal points with two clusters: the pass
    in which the second cluster is empty raises nothing and repairs
    nothing; it ends with a NaN center stored in [centers], on which the
    next pass works. *)
Lemma empty_cluster_counterexample :
  pairwise_distances_argmin sum_of_squares (points1 [1; 1]%Z) (points1 [1; 1]%Z)
    = Ok [0; 0] /\
  select (points1 [1; 1]%Z) [0; 0] 1 = [] /\
  step sum_of_squares sum_in_order false (points1 [1; 1]%Z) 2 (points1 [1; 1]%Z)
    = Continue [[1%float]; [NaN]] /\
  step sum_of_squares sum_in_order true (points1 [1; 1]%Z) 2 (points1 [1; 1]%Z)
    = Continue [[1%float]; [NaN]] /\
  centers_at sum_of_squares sum_in_order false 1 (points1 [1; 1]%Z) 2 (points1 [1; 1]%Z)
    = Some [[1%float]; [NaN]] /\
  fst (find_clusters sum_of_squares sum_in_order false rot_seed rot_permutation 1
         (points1 [1; 1]%Z) 2 0%Z [])
    = OutOfFuel /\
  fst (find_clusters sum_of_squares sum_in_order false rot_seed rot_permutation 2
         (points1 [1; 1]%Z) 2 0%Z [])
    = Raised ValueError.
Proof.
  repeat split; reflexivity.
Qed.

Lemma empty_cluster_propagates_nan_witness :
  pairwise_distances_argmin sum_of_squares (points1 [1; 1]%Z) (points1 [1; 1]%Z)
    = Ok [0; 0] /\
  1 < 2 /\
  select (points1 [1; 1]%Z) [0; 0] 1 = [] /\
  step sum_of_squares sum_in_order false (points1 [1; 1]%Z) 2
    (update sum_in_order (points1 [1; 1]%Z) [0; 0] 2)
    = Fail ValueError.
Proof.
  assert (h1 : pairwise_distances_argmin sum_of_squares (points1 [1; 1]%Z) (points1 [1; 1]%Z)
               = Ok [0; 0]) by reflexivity.
  assert (h2 : 1 < 2) by lia.
  assert (h3 : select (points1 [1; 1]%Z) [0; 0] 1 = []) by reflexivity.
  repeat (split; [assumption|]).
  exact (proj1 (proj2 (proj2 (proj2 (proj2
    (empty_cluster_propagates_nan sum_of_squares sum_in_order false Z rot_seed rot_permutation
       rot_permutation_perm
       (points1 [1; 1]%Z) 2 (points1 [1; 1]%Z) [0; 0] 1 h1 h2 h3)))))).
Defined.

(** C5 as stated fails for five points and seven clusters: nothing is
    raised before the loop, the first assignment step is carried out,
    and the exception, when it comes, is the library's [ValueError]
    (in the second pass, or at the end of the first one under a NumPy
    that refuses shapes that do not broadcast). *)
Lemma more_clusters_than_points_counterexample :
  init_centers rot_seed rot_permutation (points1 [1; 2; 3; 4; 5]%Z) 7 2%Z []
    = (Returned (points1 [3; 4; 5; 1; 2]%Z), [3%Z]) /\
  fst (find_clusters sum_of_squares sum_in_order false rot_seed rot_permutation 0
         (points1 [1; 2; 3; 4; 5]%Z) 7 2%Z [])
    = OutOfFuel /\
  pairwise_distances_argmin sum_of_squares (points1 [1; 2; 3; 4; 5]%Z)
    (points1 [3; 4; 5; 1; 2]%Z)
    = Ok [3; 4; 0; 1; 2] /\
  fst (find_clusters sum_of_squares sum_in_order false rot_seed rot_permutation 1
         (points1 [1; 2; 3; 4; 5]%Z) 7 2%Z [])
    = OutOfFuel /\
  fst (find_clusters sum_of_squares sum_in_order false rot_seed rot_permutation 2
         (points1 [1; 2; 3; 4; 5]%Z) 7 2%Z [])
    = Raised ValueError /\
  fst (find_clusters sum_of_squares sum_in_order true rot_seed rot_permutation 1
         (points1 [1; 2; 3; 4; 5]%Z) 7 2%Z [])
    = Raised ValueError.
Proof.
  repeat split; reflexivity.
Qed.

Lemma more_clusters_than_points_witness :
  nrows (points1 [1; 2; 3; 4; 5]%Z) < 7 /\
  fst (find_clusters sum_of_squares sum_in_order false rot_seed rot_permutation 2
         (points1 [1; 2; 3; 4; 5]%Z) 7 2%Z [])
    = Raised ValueError.
Proof.
  assert (h1 : nrows (points1 [1; 2; 3; 4; 5]%Z) < 7) by (simpl; lia).
  split; [assumption|].
  exact (proj1 (proj2
    (more_clusters_than_points sum_of_squares sum_in_order false Z rot_seed rot_permutation
       rot_permutation_perm
       (points1 [1; 2; 3; 4; 5]%Z) 7 2%Z [] h1)) 0).
Defined.

(** C6 as stated fails on an array with a NaN: before anything is
    raised a generator has been created, a permutation drawn and the
    centers selected; the exception is raised by the assignment step of
    the first pass. *)
Lemma non_finite_input_counterexample :
  init_centers rot_seed rot_permutation [[1%float]; [NaN]] 1 0%Z []
    = (Returned [[1%float]], [1%Z]) /\
  find_clusters sum_of_squares sum_in_order false rot_seed rot_permutation 0
    [[1%float]; [NaN]] 1 0%Z []
    = (OutOfFuel, [1%Z]) /\
  find_clusters sum_of_squares sum_in_order false rot_seed rot_permutation 1
    [[1%float]; [NaN]] 1 0%Z []
    = (Raised ValueError, [1%Z]) /\
  find_clusters sum_of_squares sum_in_order false rot_seed rot_permutation 1
    [[1%float]; [infinity]] 1 0%Z []
    = (Raised ValueError, [1%Z]).
Proof.
  repeat split; reflexivity.
Qed.

Lemma non_finite_input_witness :
  all_finite [[1%float]; [NaN]] = false /\
  exists c0 g,
    init_centers rot_seed rot_permutation [[1%float]; [NaN]] 1 0%Z []
      = (Returned c0, [] ++ [g]) /\
    find_clusters sum_of_squares sum_in_order false rot_seed rot_permutation 1
      [[1%float]; [NaN]] 1 0%Z []
      = (Raised ValueError, [] ++ [g]).
Proof.
  assert (h1 : all_finite [[1%float]; [NaN]] = false) by reflexivity.
  split; [assumption|].
  exact (non_finite_input sum_of_squares sum_in_order false Z rot_seed rot_permutation
           rot_permutation_perm
           [[1%float]; [NaN]] 1 0%Z [] 0 h1).
Defined.

Lemma initial_centers_distinct_points_witness :
  2 <= nrows (points1 [1; 2; 3; 4; 5]%Z) /\
  exists (p idx : list nat) (c0 : array) (s' : store Z),
    init_centers rot_seed rot_permutation (points1 [1; 2; 3; 4; 5]%Z) 2 3%Z []
      = (Returned c0, s') /\
    p = fst (rot_permutation (rot_seed 3%Z) (nrows (points1 [1; 2; 3; 4; 5]%Z))) /\
    Permutation p (seq 0 (nrows (points1 [1; 2; 3; 4; 5]%Z))) /\
    idx = firstn 2 p /\
    length idx = 2 /\
    NoDup idx /\
    Forall (fun j => j < nrows (points1 [1; 2; 3; 4; 5]%Z)) idx /\
    c0 = map (fun j => nth j (points1 [1; 2; 3; 4; 5]%Z) []) idx /\
    nrows c0 = 2 /\
    (forall s2, fst (init_centers rot_seed rot_permutation
                       (points1 [1; 2; 3; 4; 5]%Z) 2 3%Z s2) = Returned c0).
Proof.
  assert (h1 : 2 <= nrows (points1 [1; 2; 3; 4; 5]%Z)) by (simpl; lia).
  split; [assumption|].
  exact (initial_centers_distinct_points Z rot_seed rot_permutation rot_permutation_perm
           (points1 [1; 2; 3; 4; 5]%Z) 2 3%Z [] h1).
Defined.

Lemma find_clusters_deterministic_witness :
  fst (find_clusters sum_of_squares sum_in_order false rot_seed rot_permutation 5
         (points1 [0; 1; 10; 11]%Z) 2 0%Z [])
  = fst (find_clusters sum_of_squares sum_in_order false rot_seed rot_permutation 5
           (points1 [0; 1; 10; 11]%Z) 2 0%Z [7%Z; 8%Z]).
Proof.
  exact (proj1
    (find_clusters_deterministic sum_of_squares sum_in_order false Z rot_seed rot_permutation
       rot_permutation_perm
       5 (points1 [0; 1; 10; 11]%Z) 2 0%Z [] [7%Z; 8%Z])).
Defined.

Lemma returned_is_fixed_point_witness :
  find_clusters sum_of_squares sum_in_order false rot_seed rot_permutation 5
    (points1 [0; 1; 10; 11]%Z) 2 0%Z []
    = (Returned ([[0.5]; [10.5]]%float, [0; 0; 1; 1]), [1%Z]) /\
  nrows [[0.5]; [10.5]]%float = 2 /\
  length [0; 0; 1; 1] = nrows (points1 [0; 1; 10; 11]%Z) /\
  pairwise_distances_argmin sum_of_squares (points1 [0; 1; 10; 11]%Z) [[0.5]; [10.5]]%float
    = Ok [0; 0; 1; 1] /\
  forall k, k < 2 ->
    select (points1 [0; 1; 10; 11]%Z) [0; 0; 1; 1] k <> [] /\
    Forall2 feq (nth k [[0.5]; [10.5]]%float [])
      (mean0 sum_in_order (ncols (points1 [0; 1; 10; 11]%Z))
         (select (points1 [0; 1; 10; 11]%Z) [0; 0; 1; 1] k)).
Proof.
  assert (h1 : find_clusters sum_of_squares sum_in_order false rot_seed rot_permutation 5
                 (points1 [0; 1; 10; 11]%Z) 2 0%Z []
               = (Returned ([[0.5]; [10.5]]%float, [0; 0; 1; 1]), [1%Z]))
    by reflexivity.
  split; [assumption|].
  pose proof (returned_is_fixed_point sum_of_squares sum_in_order false Z rot_seed
                rot_permutation rot_permutation_perm
                5 (points1 [0; 1; 10; 11]%Z) 2 0%Z [] [1%Z]
                [[0.5]; [10.5]]%float [0; 0; 1; 1] h1) as H.
  exact (conj (proj1 H) (conj (proj1 (proj2 H))
           (conj (proj1 (proj2 (proj2 (proj2 (proj2 H)))))
                 (proj2 (proj2 (proj2 (proj2 (proj2 (proj2 H))))))))).
Defined.

(** C1 as stated fails on the three points a - 1, a + 1 and a, with
    a = 1.5 + 2^-51, and one cluster: the mean of the three points is
    a, a double; the column sum 3a + 2^-51 is rounded to 3a + 2^-50
    before the division, and the center that is returned is
    a + 2^-52. *)
Lemma returned_is_fixed_point_counterexample :
  find_clusters sum_of_squares sum_in_order false rot_seed rot_permutation 2 tight_X 1 2%Z []
    = (Returned ([[0x1.8000000000003p+0]]%float, [0; 0; 0]), [3%Z]) /\
  select tight_X [0; 0; 0] 0 = tight_X /\
  Qeq (mean_of (column 0 tight_X)) (to_Q 0x1.8000000000002p+0%float) /\
  Qlt (mean_of (column 0 tight_X)) (to_Q 0x1.8000000000003p+0%float).
Proof.
  repeat split; vm_compute; reflexivity.
Qed.

(** The run on 0, 2, 10 and 12 with two clusters: two passes move the
    centers from (0, 2) to (0, 8) and to (1, 11); every distance and
    every mean of this run is computed without rounding. *)
Lemma objective_never_increases_witness :
  find_clusters sum_of_squares sum_in_order false rot_seed rot_permutation 5
    (points1 [0; 2; 10; 12]%Z) 2 0%Z []
    = (Returned ([[1]; [11]]%float, [0; 0; 1; 1]), [1%Z]) /\
  init_centers rot_seed rot_permutation (points1 [0; 2; 10; 12]%Z) 2 0%Z []
    = (Returned (points1 [0; 2]%Z), [1%Z]) /\
  (forall t c,
      centers_at sum_of_squares sum_in_order false t (points1 [0; 2; 10; 12]%Z) 2
        (points1 [0; 2]%Z) = Some c ->
      exact_pass sum_of_squares sum_in_order (points1 [0; 2; 10; 12]%Z) 2 c) /\
  exists l0,
    pairwise_distances_argmin sum_of_squares (points1 [0; 2; 10; 12]%Z) (points1 [0; 2]%Z)
      = Ok l0 /\
    Qle (wcss (points1 [0; 2; 10; 12]%Z) [[1]; [11]]%float [0; 0; 1; 1])
        (wcss (points1 [0; 2; 10; 12]%Z) (points1 [0; 2]%Z) l0) /\
    (forall t c c',
        centers_at sum_of_squares sum_in_order false t (points1 [0; 2; 10; 12]%Z) 2
          (points1 [0; 2]%Z) = Some c ->
        centers_at sum_of_squares sum_in_order false (S t) (points1 [0; 2; 10; 12]%Z) 2
          (points1 [0; 2]%Z) = Some c' ->
        exists l l',
          pairwise_distances_argmin sum_of_squares (points1 [0; 2; 10; 12]%Z) c = Ok l /\
          pairwise_distances_argmin sum_of_squares (points1 [0; 2; 10; 12]%Z) c' = Ok l' /\
          Qle (wcss (points1 [0; 2; 10; 12]%Z) c' l') (wcss (points1 [0; 2; 10; 12]%Z) c l)).
Proof.
  assert (h3 : forall t c,
             centers_at sum_of_squares sum_in_order false t (points1 [0; 2; 10; 12]%Z) 2
               (points1 [0; 2]%Z) = Some c ->
             exact_pass sum_of_squares sum_in_order (points1 [0; 2; 10; 12]%Z) 2 c).
  { intros t c H labels Hl.
    destruct t as [|[|[|t]]]; vm_compute in H; [| | |discriminate H];
      injection H as <-; vm_compute in Hl; injection Hl as <-;
      (split;
       [ repeat constructor; intros j Hj; vm_compute in Hj;
         destruct j as [|[|j]]; try lia; vm_compute; intros Hgt; discriminate Hgt
       | intros k d Hk Hd; vm_compute in Hk, Hd;
         destruct k as [|[|k]]; try lia; destruct d as [|d]; try lia;
         vm_compute; reflexivity ]). }
  assert (h1 : find_clusters sum_of_squares sum_in_order false rot_seed rot_permutation 5
                 (points1 [0; 2; 10; 12]%Z) 2 0%Z []
               = (Returned ([[1]; [11]]%float, [0; 0; 1; 1]), [1%Z]))
    by reflexivity.
  assert (h2 : init_centers rot_seed rot_permutation (points1 [0; 2; 10; 12]%Z) 2 0%Z []
               = (Returned (points1 [0; 2]%Z), [1%Z])) by reflexivity.
  split; [exact h1|]. split; [exact h2|]. split; [exact h3|].
  exact (objective_never_increases sum_of_squares sum_in_order false Z rot_seed
           rot_permutation rot_permutation_perm
           5 (points1 [0; 2; 10; 12]%Z) 2 0%Z [] [1%Z] (points1 [0; 2]%Z)
           [[1]; [11]]%float [0; 0; 1; 1] h1 h2 h3).
Defined.

(** The objective of that run: 164 with the initial centers 0 and 2,
    4 with the returned ones. *)
Example objective_drop :
  wcss (points1 [0; 2; 10; 12]%Z) (points1 [0; 2]%Z) [0; 1; 1; 1] = 164%Q /\
  wcss (points1 [0; 2; 10; 12]%Z) [[1]; [11]]%float [0; 0; 1; 1] = 4%Q.
Proof.
  split; reflexivity.
Qed.

(** C2 as stated fails on the same three points with one cluster, when
    the point drawn as initial center is a, the mean: the objective of
    the initial assignment is 2, its least value; the center returned
    is a + 2^-52 and its objective is 2 + 3 * 2^-104. *)
Lemma objective_never_increases_counterexample :
  init_centers rot_seed rot_permutation tight_X 1 2%Z []
    = (Returned [[0x1.8000000000002p+0]]%float, [3%Z]) /\
  pairwise_distances_argmin sum_of_squares tight_X [[0x1.8000000000002p+0]]%float
    = Ok [0; 0; 0] /\
  find_clusters sum_of_squares sum_in_order false rot_seed rot_permutation 2 tight_X 1 2%Z []
    = (Returned ([[0x1.8000000000003p+0]]%float, [0; 0; 0]), [3%Z]) /\
  Qeq (wcss tight_X [[0x1.8000000000002p+0]]%float [0; 0; 0]) 2 /\
  Qlt (wcss tight_X [[0x1.8000000000002p+0]]%float [0; 0; 0])
      (wcss tight_X [[0x1.8000000000003p+0]]%float [0; 0; 0]).
Proof.
  repeat split; vm_compute; reflexivity.
Qed.

(** C8 as stated fails in each of its parts.  On the two points 0 and 2
    the loop is still running after one pass (the center has just been
    moved from 0 to the mean 1) and returns in the second.  On the three
    points around a = 1.5 + 2^-51 the center returned is a + 2^-52 and
    the mean of the points is a.  On two points 1.5 * 2^1023 and the
    point 0 the column sum overflows, the mean computed is the infinity,
    and the second pass raises the library's [ValueError]. *)
Lemma single_cluster_counterexample :
  (find_clusters sum_of_squares sum_in_order false rot_seed rot_permutation 1
     (points1 [0; 2]%Z) 1 0%Z []
   = (OutOfFuel, [1%Z]) /\
   find_clusters sum_of_squares sum_in_order false rot_seed rot_permutation 2
     (points1 [0; 2]%Z) 1 0%Z []
   = (Returned ([[1]]%float, [0; 0]), [1%Z])) /\
  (check_array tight_X = true /\
   find_clusters sum_of_squares sum_in_order false rot_seed rot_permutation 2 tight_X 1 2%Z []
   = (Returned ([[0x1.8000000000003p+0]]%float, [0; 0; 0]), [3%Z]) /\
   Qlt (mean_of (column 0 tight_X)) (to_Q 0x1.8000000000003p+0%float)) /\
  (check_array huge_X = true /\
   mean0 sum_in_order 1 huge_X = [infinity] /\
   find_clusters sum_of_squares sum_in_order false rot_seed rot_permutation 1 huge_X 1 0%Z []
   = (OutOfFuel, [1%Z]) /\
   forall n,
     find_clusters sum_of_squares sum_in_order false rot_seed rot_permutation (S (S n))
       huge_X 1 0%Z []
     = (Raised ValueError, [1%Z])).
Proof.
  split; [split; reflexivity|].
  split; [repeat split; vm_compute; reflexivity|].
  split; [reflexivity|]. split; [reflexivity|]. split; [reflexivity|].
  intros n.
  rewrite (find_clusters_run sum_of_squares sum_in_order false Z rot_seed rot_permutation
             rot_permutation_perm).
  reflexivity.
Qed.

Lemma single_cluster_witness :
  check_array (points1 [0; 2]%Z) = true /\
  exists (c0 : vector) (s' : store Z),
    init_centers rot_seed rot_permutation (points1 [0; 2]%Z) 1 0%Z [] = (Returned [c0], s') /\
    (row_eqb (ncols (points1 [0; 2]%Z)) c0
       (mean0 sum_in_order (ncols (points1 [0; 2]%Z)) (points1 [0; 2]%Z)) = false ->
     fst (find_clusters sum_of_squares sum_in_order false rot_seed rot_permutation 1
            (points1 [0; 2]%Z) 1 0%Z []) = OutOfFuel) /\
    (forall fuel c l s2,
        find_clusters sum_of_squares sum_in_order false rot_seed rot_permutation fuel
          (points1 [0; 2]%Z) 1 0%Z [] = (Returned (c, l), s2) ->
        exists r, c = [r] /\
                  Forall2 feq r
                    (mean0 sum_in_order (ncols (points1 [0; 2]%Z)) (points1 [0; 2]%Z)) /\
                  l = repeat 0 (nrows (points1 [0; 2]%Z))).
Proof.
  assert (h1 : check_array (points1 [0; 2]%Z) = true) by reflexivity.
  split; [assumption|].
  destruct (single_cluster sum_of_squares sum_in_order false Z rot_seed rot_permutation
              rot_permutation_perm (points1 [0; 2]%Z) 0%Z [] h1)
    as (c0 & s' & H1 & _ & H3 & H4).
  exists c0, s'. split; [exact H1|]. split; [|exact H4].
  intros E. exact (proj1 (H3 E)).
Defined.

(** C4 as stated fails on [slow_X], 372 finite points on a line, with
    two clusters: after 300 passes the loop is still running, and
    nothing but the test of a later pass will stop it. *)
Lemma iteration_cap_counterexample :
  check_array slow_X = true /\
  nrows slow_X = 372 /\
  fst (find_clusters sum_of_squares sum_in_order false rot_seed rot_permutation 300
         slow_X 2 0%Z []) = OutOfFuel.
Proof.
  split; [vm_compute; reflexivity|].
  split; [vm_compute; reflexivity|].
  vm_compute; reflexivity.
Qed.

(** One pass on the points 0 and 2 with one cluster has not returned:
    the center has moved from 0 to 1. *)
Lemma terminates_without_cap_witness :
  init_centers rot_seed rot_permutation (points1 [0; 2]%Z) 1 0%Z []
    = (Returned (points1 [0]%Z), [1%Z]) /\
  centers_at sum_of_squares sum_in_order false 1 (points1 [0; 2]%Z) 1 (points1 [0]%Z)
    = Some [[1]]%float /\
  fst (find_clusters sum_of_squares sum_in_order false rot_seed rot_permutation 1
         (points1 [0; 2]%Z) 1 0%Z []) = OutOfFuel.
Proof.
  assert (h1 : init_centers rot_seed rot_permutation (points1 [0; 2]%Z) 1 0%Z []
               = (Returned (points1 [0]%Z), [1%Z])) by reflexivity.
  assert (h2 : centers_at sum_of_squares sum_in_order false 1 (points1 [0; 2]%Z) 1
                 (points1 [0]%Z)
               = Some [[1]]%float) by reflexivity.
  split; [exact h1|]. split; [exact h2|].
  exact (proj2 (proj2
    (terminates_without_cap sum_of_squares sum_in_order false Z rot_seed rot_permutation
       rot_permutation_perm (points1 [0; 2]%Z) 1 0%Z []))
    1 (points1 [0]%Z) [1%Z] [[1]]%float h1 h2).
Defined.

(** ** Runs for the further properties of [find_clusters] *)

Lemma no_points_or_no_clusters_witness :
  (nrows (points1 [0; 1]%Z) = 0 \/ 0 = 0) /\
  fst (init_centers rot_seed rot_permutation (points1 [0; 1]%Z) 0 0%Z []) = Returned [] /\
  fst (find_clusters sum_of_squares sum_in_order false rot_seed rot_permutation 1
         (points1 [0; 1]%Z) 0 0%Z [])
    = Raised ValueError.
Proof.
  assert (h : nrows (points1 [0; 1]%Z) = 0 \/ 0 = 0) by (right; reflexivity).
  split; [exact h|].
  exact (no_points_or_no_clusters sum_of_squares sum_in_order false Z rot_seed rot_permutation
           rot_permutation_perm
           (points1 [0; 1]%Z) 0 0%Z [] 0 h).
Defined.

Lemma twin_centers_raise_witness :
  init_centers rot_seed rot_permutation (points1 [1; 1; 5]%Z) 2 0%Z []
    = (Returned (points1 [1; 1]%Z), [1%Z]) /\
  (forall l0,
      pairwise_distances_argmin sum_of_squares (points1 [1; 1; 5]%Z) (points1 [1; 1]%Z)
        = Ok l0 ->
      select (points1 [1; 1; 5]%Z) l0 1 = []) /\
  fst (find_clusters sum_of_squares sum_in_order false rot_seed rot_permutation 2
         (points1 [1; 1; 5]%Z) 2 0%Z [])
    = Raised ValueError.
Proof.
  assert (h1 : init_centers rot_seed rot_permutation (points1 [1; 1; 5]%Z) 2 0%Z []
               = (Returned (points1 [1; 1]%Z), [1%Z])) by reflexivity.
  assert (h2 : 0 < 1) by lia.
  assert (h3 : 1 < 2) by lia.
  assert (h4 : Forall2 feq (nth 0 (points1 [1; 1]%Z) []) (nth 1 (points1 [1; 1]%Z) [])).
  { repeat constructor. }
  split; [exact h1|].
  exact (twin_centers_raise sum_of_squares sum_in_order sum_of_squares_values false Z rot_seed
           rot_permutation rot_permutation_perm
           (points1 [1; 1; 5]%Z) 2 0%Z [] [1%Z] (points1 [1; 1]%Z) 0 1 0 h1 h2 h3 h4).
Defined.

(** * Properties of the plotting helpers *)

Section PlottingProperties.

Variable degrees_arctan2 : float -> float -> float.
Variable svd : array -> try (array * vector).
Variable kmeans_fit_predict : array -> try kmeans_fit.
Variable gmm_fit_predict : array -> try gmm_fit.

Lemma drawn_draw (a : nat) (cmd : command) (fig : figure) (b : nat) :
  drawn (draw a cmd fig) b = if b =? a then drawn fig b ++ [cmd] else drawn fig b.
Proof. reflexivity. Qed.


Lemma gca_draw_all (a : nat) (cmds : list command) (fig : figure) :
  gca (draw_all a cmds fig) = gca fig.
Proof.
  revert fig. induction cmds as [|cmd cmds IH]; intros fig; cbn [draw_all]; [reflexivity|].
  now rewrite IH.
Qed.

(** *** Distances *)




Lemma cdist_max_throw (A : array) (center : vector) (e : pyexn) :
  cdist_max A center = Throw e -> e = ValueErr.
Proof.
  unfold cdist_max. destruct (forallb (fun x => length x =? length center) A).
  - destruct (map _ A); cbn [max_of]; [|discriminate]. now intros [= <-].
  - now intros [= <-].
Qed.

Lemma radii_from_throw (i : nat) (X : array) (labels : list nat) (centers : array) (e : pyexn) :
  radii_from i X labels centers = Throw e -> e = ValueErr.
Proof.
  revert i. induction centers as [|center centers IH]; intros i; cbn [radii_from];
    [discriminate|].
  destruct (cdist_max (select X labels i) center) as [r|e'] eqn:E.
  - destruct (radii_from (S i) X labels centers) as [rs|e''] eqn:E'; [discriminate|].
    intros [= <-]. exact (IH _ E').
  - intros [= <-]. exact (cdist_max_throw _ _ _ E).
Qed.

Lemma radii_from_empty (i k : nat) (X : array) (labels : list nat) (centers : array) :
  k < nrows centers -> select X labels (i + k) = [] ->
  radii_from i X labels centers = Throw ValueErr.
Proof.
  revert i k. induction centers as [|center centers IH]; intros i k Hk He;
    cbn [nrows length] in Hk; [lia|].
  cbn [radii_from].
  destruct (cdist_max (select X labels i) center) as [r|e] eqn:E.
  - destruct k as [|k].
    + rewrite Nat.add_0_r in He. rewrite He in E. discriminate.
    + rewrite (IH (S i) k); [reflexivity|unfold nrows; lia|].
      now replace (S i + k) with (i + S k) by lia.
  - now rewrite (cdist_max_throw _ _ _ E).
Qed.



(** X9. When the fitted estimator has a center whose cluster holds no
    point, [plot_kmeans] raises a [ValueError] (the maximum of no
    distance): the axes have received the equal-axis command and the
    scatter of the points, and no circle at all, also not those of the
    clusters before the empty one. *)
Theorem empty_cluster_no_circle :
  forall X n_clusters rseed ax fig km i x0 x1,
    kmeans_fit_predict X = Done km ->
    column_of 0 X = Done x0 ->
    column_of 1 X = Done x1 ->
    i < nrows (cluster_centers_ km) ->
    select X (km_labels km) i = [] ->
    fst (plot_kmeans kmeans_fit_predict X n_clusters rseed ax fig) = Throw ValueErr /\
    forall b,
      drawn (snd (plot_kmeans kmeans_fit_predict X n_clusters rseed ax fig)) b
      = if b =? ax_or_gca ax fig
        then drawn fig b ++ [AxisEqual; Scatter x0 x1 (Some (km_labels km))]
        else drawn fig b.
Proof.
  intros X n_clusters rseed ax fig km i x0 x1 Hfit E0 E1 Hi He.
  unfold plot_kmeans. rewrite Hfit, E0, E1.
  rewrite (radii_from_empty 0 i X _ _ Hi He). cbn [fst snd].
  split; [reflexivity|]. intros b. rewrite !drawn_draw.
  destruct (b =? ax_or_gca ax fig); [|reflexivity]. now rewrite <- app_assoc.
Qed.

(** *** The ellipses *)

Lemma draw_ellipse_inv (pos : vector) (covar : ndarray) (ax : option nat)
      (kwargs : list kwarg) (fig fig' : figure) (r : try unit) :
  draw_ellipse degrees_arctan2 svd pos covar ax kwargs fig = (r, fig') ->
  gca fig' = gca fig /\
  ((exists e, r = Throw e /\ fig' = fig /\ principal_axes degrees_arctan2 svd covar = Throw e) \/
   (exists angle width height,
       r = Done tt /\
       principal_axes degrees_arctan2 svd covar = Done (angle, width, height) /\
       forall b, drawn fig' b
                 = if b =? ax_or_gca ax fig
                   then drawn fig b
                          ++ map (fun nsig =>
                                    AddPatch (Ellipse pos (ndscale (nsig_of nsig) width)
                                                (ndscale (nsig_of nsig) height) angle kwargs))
                               [1; 2; 3]
                   else drawn fig b)).
Proof.
  unfold draw_ellipse.
  destruct (principal_axes degrees_arctan2 svd covar) as [[[angle width] height]|e].
  - intros H. injection H as <- <-. split; [reflexivity|]. right.
    exists angle, width, height. split; [reflexivity|]. split; [reflexivity|].
    intros b. cbn [map seq draw_all]. rewrite !drawn_draw.
    destruct (b =? ax_or_gca ax fig); [|reflexivity].
    now rewrite <- !app_assoc.
  - intros [= <- <-]. split; [reflexivity|]. left. now exists e.
Qed.

Lemma ellipses_for_length (w_factor : float) comps cmds :
  ellipses_for w_factor comps cmds -> length cmds = 3 * length comps.
Proof. induction 1; cbn [length]; lia. Qed.

Lemma ellipses_for_alpha (w_factor : float) comps cmds cmd :
  ellipses_for w_factor comps cmds -> In cmd cmds ->
  exists pos covar w nsig p,
    In (pos, covar, w) comps /\ cmd = AddPatch p /\
    is_ellipse_of pos [Alpha (fmul w w_factor)] nsig p.
Proof.
  induction 1 as [|pos covar w comps p1 p2 p3 cmds H1 H2 H3 H IH]; [intros []|].
  intros [<-|[<-|[<-|Hin]]].
  - exists pos, covar, w, 1, p1. repeat split; [now left|assumption].
  - exists pos, covar, w, 2, p2. repeat split; [now left|assumption].
  - exists pos, covar, w, 3, p3. repeat split; [now left|assumption].
  - destruct (IH Hin) as (pos' & covar' & w' & nsig & p & Hc & Hp).
    exists pos', covar', w', nsig, p. split; [now right|exact Hp].
Qed.

(** Whatever its outcome, the loop only adds ellipses, and only to the
    current axes; when it completes, it has added three per component. *)
Lemma ellipses_loop_inv comps w_factor fig fig' r :
  ellipses_loop degrees_arctan2 svd comps w_factor fig = (r, fig') ->
  gca fig' = gca fig /\
  exists done cmds,
    ellipses_for w_factor done cmds /\
    (forall b, drawn fig' b = if b =? gca fig then drawn fig b ++ cmds else drawn fig b) /\
    ((r = Done tt /\ done = comps) \/
     (exists e pos covar w rest,
         r = Throw e /\ comps = done ++ (pos, covar, w) :: rest /\
         principal_axes degrees_arctan2 svd covar = Throw e)).
Proof.
  revert fig. induction comps as [|[[pos covar] w] comps IH]; intros fig; cbn [ellipses_loop].
  - intros [= <- <-]. split; [reflexivity|]. exists [], [].
    split; [constructor|]. split.
    + intros b. destruct (b =? gca fig); [now rewrite app_nil_r|reflexivity].
    + now left.
  - destruct (draw_ellipse degrees_arctan2 svd pos covar None
                [Alpha (fmul w w_factor)] fig) as [r1 fig1] eqn:E.
    destruct (draw_ellipse_inv _ _ _ _ _ _ _ E) as [Hg Hcase].
    destruct Hcase as [(e & -> & -> & He)|(angle & width & height & -> & Hpa & Hd)].
    + intros [= <- <-]. split; [reflexivity|]. exists [], [].
      split; [constructor|]. split.
      * intros b. destruct (b =? gca fig); [now rewrite app_nil_r|reflexivity].
      * right. now exists e, pos, covar, w, comps.
    + intros Hloop. destruct (IH fig1 Hloop) as (Hg' & done & cmds & Hfor & Hdr & Hcase).
      split; [congruence|].
      exists ((pos, covar, w) :: done).
      eexists. split; [|split].
      * apply ellipses_cons; [| | |exact Hfor]; exists width, height, angle; reflexivity.
      * intros b. rewrite Hdr, Hg, Hd. cbn [ax_or_gca map].
        destruct (b =? gca fig); [|reflexivity].
        now rewrite <- app_assoc.
      * destruct Hcase as [[-> ->]|(e & pos' & covar' & w' & rest & -> & -> & He)];
          [now left|right].
        now exists e, pos', covar', w', rest.
Qed.

Lemma length_zip3 (A B C : Type) (l : list A) (m : list B) (n : list C) :
  length (zip3 l m n) = Nat.min (length l) (Nat.min (length m) (length n)).
Proof.
  revert m n. induction l as [|a l IH]; intros [|b m] [|c n]; cbn [zip3 length];
    try reflexivity; try lia.
  rewrite IH. lia.
Qed.

(** X10. [plot_gmm] calls [draw_ellipse] without its [ax]: when it is
    given axes that are not the current ones, these axes never receive a
    patch, whatever the outcome; when the call completes they have
    received the scatter and the equal-axis command only, and the
    current axes have received the ellipses, three for each component
    of [zip(means_, covariances_, weights_)]. *)
Theorem ellipses_on_current_axes :
  forall X label a fig fig' r,
    a <> gca fig ->
    plot_gmm degrees_arctan2 svd gmm_fit_predict X label (Some a) fig = (r, fig') ->
    (forall p, In (AddPatch p) (drawn fig' a) -> In (AddPatch p) (drawn fig a)) /\
    (r = Done tt ->
     exists gm x0 x1 cmds,
       gmm_fit_predict X = Done gm /\
       drawn fig' a
         = drawn fig a
             ++ [Scatter x0 x1 (if label then Some (gm_labels gm) else None); AxisEqual] /\
       drawn fig' (gca fig) = drawn fig (gca fig) ++ cmds /\
       (forall cmd, In cmd cmds -> exists p, cmd = AddPatch p) /\
       length cmds
         = 3 * Nat.min (nrows (means_ gm))
                 (Nat.min (length (covariances_ gm)) (length (weights_ gm)))).
Proof.
  intros X label a fig fig' r Ha. unfold plot_gmm. cbn [ax_or_gca].
  assert (Hab : (a =? gca fig) = false) by now apply Nat.eqb_neq.
  assert (Hba : (gca fig =? a) = false) by (apply Nat.eqb_neq; congruence).
  destruct (gmm_fit_predict X) as [gm|e] eqn:Hfit.
  2:{ intros [= <- <-]. split; [auto|discriminate]. }
  destruct (column_of 0 X) as [x0|e0] eqn:E0.
  2:{ destruct (column_of 1 X); intros [= <- <-]; (split; [auto|discriminate]). }
  destruct (column_of 1 X) as [x1|e1] eqn:E1.
  2:{ intros [= <- <-]. split; [auto|discriminate]. }
  set (sc := Scatter x0 x1 (if label then Some (gm_labels gm) else None)).
  destruct (max_of (weights_ gm)) as [wmax|e] eqn:Em.
  - intros Hloop.
    destruct (ellipses_loop_inv _ _ _ _ _ Hloop) as (Hg & done & cmds & Hfor & Hdr & Hcase).
    cbn [gca draw] in Hdr.
    split.
    + intros p Hp. rewrite Hdr, Hab, !drawn_draw, Nat.eqb_refl in Hp.
      rewrite <- app_assoc in Hp. apply in_app_or in Hp as [Hp|Hp]; [exact Hp|].
      destruct Hp as [Hp|[Hp|[]]]; [subst sc|]; discriminate.
    + intros ->. destruct Hcase as [[_ ->]|(e & _ & _ & _ & _ & He & _)]; [|discriminate].
      exists gm, x0, x1, cmds. split; [reflexivity|]. split; [|split; [|split]].
      * rewrite Hdr, Hab, !drawn_draw, Nat.eqb_refl. now rewrite <- app_assoc.
      * now rewrite Hdr, Nat.eqb_refl, !drawn_draw, Hba.
      * intros cmd Hc.
        destruct (ellipses_for_alpha _ _ _ _ Hfor Hc) as (_ & _ & _ & _ & p & _ & -> & _).
        now exists p.
      * rewrite (ellipses_for_length _ _ _ Hfor), length_zip3. reflexivity.
  - intros [= <- <-]. split; [|discriminate].
    intros p Hp. rewrite !drawn_draw, Nat.eqb_refl in Hp.
    rewrite <- app_assoc in Hp. apply in_app_or in Hp as [Hp|Hp]; [exact Hp|].
    destruct Hp as [Hp|[Hp|[]]]; [subst sc|]; discriminate.
Qed.

(** X12. With scalar covariances (a spherical mixture) [plot_gmm] raises a
    [TypeError] at the first component: the points are drawn, no ellipse
    is. *)
Theorem scalar_covariance_raises :
  forall X label ax fig gm x0 x1 f covs,
    gmm_fit_predict X = Done gm ->
    column_of 0 X = Done x0 ->
    column_of 1 X = Done x1 ->
    means_ gm <> [] ->
    weights_ gm <> [] ->
    covariances_ gm = Scalar f :: covs ->
    fst (plot_gmm degrees_arctan2 svd gmm_fit_predict X label ax fig) = Throw TypeErr /\
    forall b,
      drawn (snd (plot_gmm degrees_arctan2 svd gmm_fit_predict X label ax fig)) b
      = if b =? ax_or_gca ax fig
        then drawn fig b
               ++ [Scatter x0 x1 (if label then Some (gm_labels gm) else None); AxisEqual]
        else drawn fig b.
Proof.
  intros X label ax fig gm x0 x1 f covs Hfit E0 E1 Hm Hw Hc.
  unfold plot_gmm. rewrite Hfit, E0, E1, Hc.
  destruct (means_ gm) as [|pos ms]; [contradiction|].
  destruct (weights_ gm) as [|w ws]; [contradiction|].
  cbn [max_of zip3 ellipses_loop draw_ellipse principal_axes is_2x2 ndsqrt ndscale unpack2
       fst snd].
  split; [reflexivity|]. intros b. rewrite !drawn_draw.
  destruct (b =? ax_or_gca ax fig); [|reflexivity]. now rewrite <- app_assoc.
Qed.

End PlottingProperties.

(** ** Runs of the plotting helpers *)


(** The circles of that run: radius 5 around (3, 4) and radius 3 around
    (20, 3). *)
Example blobs_circles :
  radii_from 0 blobs (km_labels blobs_kmeans) (cluster_centers_ blobs_kmeans)
  = Done [5; 3]%float.
Proof. reflexivity. Qed.

Lemma empty_cluster_no_circle_witness :
  select blobs (km_labels blobs_kmeans_3) 1 = [] /\
  fst (plot_kmeans (fitted_kmeans blobs_kmeans_3) blobs 4 0%Z None two_axes)
    = Throw ValueErr /\
  forall b,
    drawn (snd (plot_kmeans (fitted_kmeans blobs_kmeans_3) blobs 4 0%Z None two_axes))
          b
    = if b =? ax_or_gca None two_axes
      then drawn two_axes b
             ++ [AxisEqual;
                 Scatter [0; 6; 20; 20]%float [0; 8; 0; 6]%float
                   (Some (km_labels blobs_kmeans_3))]
      else drawn two_axes b.
Proof.
  assert (h1 : fitted_kmeans blobs_kmeans_3 blobs = Done blobs_kmeans_3) by reflexivity.
  assert (h2 : column_of 0 blobs = Done [0; 6; 20; 20]%float) by reflexivity.
  assert (h3 : column_of 1 blobs = Done [0; 8; 0; 6]%float) by reflexivity.
  assert (h4 : 1 < nrows (cluster_centers_ blobs_kmeans_3)) by (cbn; lia).
  assert (h5 : select blobs (km_labels blobs_kmeans_3) 1 = []) by reflexivity.
  split; [exact h5|].
  exact (empty_cluster_no_circle (fitted_kmeans blobs_kmeans_3) blobs 4 0%Z None
           two_axes blobs_kmeans_3 1 _ _ h1 h2 h3 h4 h5).
Defined.

Lemma ellipses_on_current_axes_witness :
  1 <> gca two_axes /\
  (forall p,
      In (AddPatch p)
         (drawn (snd (plot_gmm angle_diag svd_diag (fitted_gmm (blobs_gmm full_covs))
                        blobs true (Some 1) two_axes)) 1) ->
      In (AddPatch p) (drawn two_axes 1)) /\
  (Done tt = Done tt ->
   exists gm x0 x1 cmds,
     fitted_gmm (blobs_gmm full_covs) blobs = Done gm /\
     drawn (snd (plot_gmm angle_diag svd_diag (fitted_gmm (blobs_gmm full_covs))
                   blobs true (Some 1) two_axes)) 1
       = drawn two_axes 1
           ++ [Scatter x0 x1 (if true then Some (gm_labels gm) else None); AxisEqual] /\
     drawn (snd (plot_gmm angle_diag svd_diag (fitted_gmm (blobs_gmm full_covs))
                   blobs true (Some 1) two_axes)) (gca two_axes)
       = drawn two_axes (gca two_axes) ++ cmds /\
     (forall cmd, In cmd cmds -> exists p, cmd = AddPatch p) /\
     length cmds
       = 3 * Nat.min (nrows (means_ gm))
               (Nat.min (length (covariances_ gm)) (length (weights_ gm)))).
Proof.
  assert (h1 : 1 <> gca two_axes) by (cbn; lia).
  assert (h2 : plot_gmm angle_diag svd_diag (fitted_gmm (blobs_gmm full_covs))
                 blobs true (Some 1) two_axes
               = (Done tt,
                  snd (plot_gmm angle_diag svd_diag (fitted_gmm (blobs_gmm full_covs))
                         blobs true (Some 1) two_axes)))
    by reflexivity.
  split; [exact h1|].
  exact (ellipses_on_current_axes angle_diag svd_diag (fitted_gmm (blobs_gmm full_covs))
           blobs true 1 two_axes _ (Done tt) h1 h2).
Defined.

Lemma scalar_covariance_raises_witness :
  covariances_ (blobs_gmm spherical_covs) = Scalar 25%float :: [Scalar 9%float] /\
  fst (plot_gmm angle_diag svd_diag (fitted_gmm (blobs_gmm spherical_covs))
         blobs true None two_axes) = Throw TypeErr /\
  forall b,
    drawn (snd (plot_gmm angle_diag svd_diag (fitted_gmm (blobs_gmm spherical_covs))
                  blobs true None two_axes)) b
    = if b =? ax_or_gca None two_axes
      then drawn two_axes b
             ++ [Scatter [0; 6; 20; 20]%float [0; 8; 0; 6]%float
                   (if true then Some (gm_labels (blobs_gmm spherical_covs)) else None);
                 AxisEqual]
      else drawn two_axes b.
Proof.
  assert (h1 : fitted_gmm (blobs_gmm spherical_covs) blobs = Done (blobs_gmm spherical_covs))
    by reflexivity.
  assert (h2 : column_of 0 blobs = Done [0; 6; 20; 20]%float) by reflexivity.
  assert (h3 : column_of 1 blobs = Done [0; 8; 0; 6]%float) by reflexivity.
  assert (h4 : means_ (blobs_gmm spherical_covs) <> []) by discriminate.
  assert (h5 : weights_ (blobs_gmm spherical_covs) <> []) by discriminate.
  assert (h6 : covariances_ (blobs_gmm spherical_covs)
               = Scalar 25%float :: [Scalar 9%float]) by reflexivity.
  split; [exact h6|].
  exact (scalar_covariance_raises angle_diag svd_diag
           (fitted_gmm (blobs_gmm spherical_covs)) blobs true None two_axes
           (blobs_gmm spherical_covs) _ _ 25%float [Scalar 9%float] h1 h2 h3 h4 h5 h6).
Defined.
